(** * pypsi: escape decoding, variable substitution, stream proxies

    A shallow embedding of the parts of pypsi that transform token lists
    (plugins/hexcode.py, plugins/variable.py) and of the thread-scoped
    streams and invocation threads of pipes.py, with the properties the
    specification states about them.

    Conventions of the embedding.
    - The interpreter is Python 3: [str] is a sequence of code points,
      [int(s, base=16)] and [str.split()] use the Unicode notion of white
      space, exceptions have no [message] attribute.
    - Text is modelled over the code points 0..255 (type [ascii]).
    - A Python exception is a value of type [exn]; a call that may raise
      returns a [result].
    - Objects mutated in place (tokens, the namespace, the proxy map) are
      threaded explicitly: an operation returns the new contents of the
      object it mutates. *)

From Stdlib Require Import ZArith Ascii String List Bool Lia.
From stdpp Require Import base option list gmap strings sorting.

Local Open Scope string_scope.
Local Open Scope Z_scope.
Local Open Scope list_scope.

(* ===================================================================== *)
(** ** The Python runtime the sources rely on                             *)
(* ===================================================================== *)

Module Py.

(** Exceptions raised by the modelled code and builtins. *)
Inductive exn : Type :=
| ValueError (msg : string)
| TypeError (msg : string)
| AttributeError (msg : string)
| OtherError (msg : string).

(** Outcome of a call: a value or a raised exception. *)
Inductive result (A : Type) : Type :=
| Ok (a : A)
| Raise (e : exn).
Arguments Ok {A} a.
Arguments Raise {A} e.

(** A dynamically typed value stored in an attribute that the code
    fills with integers or with strings. *)
Inductive pyval : Type :=
| PyInt (z : Z)
| PyStr (s : string).

Definition is_int (v : pyval) : bool :=
  match v with PyInt _ => true | PyStr _ => false end.

Definition backslash : ascii := "\"%char.

Definition code (c : ascii) : Z := Z.of_nat (nat_of_ascii c).

(** [c.isspace()] for a code point below 256: the characters that
    [str.split()] splits on and that [int()] strips. *)
Definition is_space (c : ascii) : bool :=
  let n := code c in
  ((9 <=? n) && (n <=? 13)) || ((28 <=? n) && (n <=? 32))
  || (n =? 133) || (n =? 160).

(** Truth value of a string: empty strings are false. *)
Definition truthy (s : string) : bool :=
  match s with EmptyString => false | String _ _ => true end.

(** [c in s] for a single character [c]. *)
Fixpoint contains (c : ascii) (s : string) : bool :=
  match s with
  | EmptyString => false
  | String d r => if Ascii.eqb c d then true else contains c r
  end.

Definition hex_digit (c : ascii) : option Z :=
  let n := code c in
  if (48 <=? n) && (n <=? 57) then Some (n - 48)
  else if (97 <=? n) && (n <=? 102) then Some (n - 87)
  else if (65 <=? n) && (n <=? 70) then Some (n - 55)
  else None.

Fixpoint lstrip (s : string) : string :=
  match s with
  | EmptyString => EmptyString
  | String c r => if is_space c then lstrip r else s
  end.

Fixpoint rstrip (s : string) : string :=
  match s with
  | EmptyString => EmptyString
  | String c r =>
      match rstrip r with
      | EmptyString => if is_space c then EmptyString else String c EmptyString
      | r' => String c r'
      end
  end.

(** The digits of an integer literal: hexadecimal digits, single
    underscores allowed between two digits only. *)
Fixpoint digits16 (s : string) (acc : Z) (after_digit : bool) : option Z :=
  match s with
  | EmptyString => if after_digit then Some acc else None
  | String c r =>
      if Ascii.eqb c "_" then
        if after_digit then digits16 r acc false else None
      else
        match hex_digit c with
        | Some d => digits16 r (16 * acc + d) true
        | None => None
        end
  end.

(** [int(s, base=16)]: surrounding white space is stripped, then an
    optional sign, an optional [0x] prefix (which one underscore may
    follow), then the digits. Anything else raises ValueError. *)
Definition int_base16 (s : string) : result Z :=
  let body := rstrip (lstrip s) in
  let '(neg, unsigned) :=
    match body with
    | String "+" r => (false, r)
    | String "-" r => (true, r)
    | _ => (false, body)
    end in
  let digits :=
    match unsigned with
    | String "0" (String "x" r) | String "0" (String "X" r) =>
        match r with
        | String "_" r' => r'
        | _ => r
        end
    | _ => unsigned
    end in
  match digits16 digits 0 false with
  | Some n => Ok (if neg then - n else n)
  | None => Raise (ValueError "invalid literal for int() with base 16")
  end.

(** [chr(n)] on the code points of the model; a negative argument
    raises ValueError as in Python. The decoder calls [chr] only on
    the value of a two-character literal, which is below 256
    (lemma [int_base16_two_lt_256]). *)
Definition chr (n : Z) : result ascii :=
  if (0 <=? n) && (n <? 256) then Ok (ascii_of_nat (Z.to_nat n))
  else Raise (ValueError "chr() arg not in range").

(** [s.split()]: the maximal runs of characters that are not white
    space, in order. [cur] is the run being read. *)
Fixpoint split_from (s : string) (cur : string) : list string :=
  match s with
  | EmptyString => if truthy cur then [cur] else []
  | String c r =>
      if is_space c then
        if truthy cur then cur :: split_from r EmptyString
        else split_from r EmptyString
      else split_from r (cur +:+ String c EmptyString)
  end.

Definition split (s : string) : list string := split_from s EmptyString.

End Py.

Import Py.

(* ===================================================================== *)
(** ** Tokens (pypsi.cmdline)                                             *)
(* ===================================================================== *)

(** Modelled from the spec: the token classes of pypsi.cmdline, which the
    plugins import. A token is a unit with a source offset [index]; a
    StringToken carries its literal [text] and an optional enclosing
    quote [quote] (None when unquoted) and is built as
    [StringToken(index, text, quote=None)]; a WhitespaceToken as
    [WhitespaceToken(index)]. OperatorToken stands for the remaining
    variants. VariableToken is the class of plugins/variable.py, built as
    [VariableToken(prefix, index, var='')]. Python does not check what is
    stored in [index] and [prefix], hence [pyval]. Token objects define
    no truth value of their own: every token object is true. *)
Inductive Token : Type :=
| StringToken (index : pyval) (text : string) (quote : option ascii)
| WhitespaceToken (index : pyval)
| OperatorToken (index : pyval) (operator : string)
| VariableToken (prefix : pyval) (index : pyval) (var : string).

Definition token_index (t : Token) : pyval :=
  match t with
  | StringToken i _ _ | WhitespaceToken i
  | OperatorToken i _ | VariableToken _ i _ => i
  end.

Definition is_string_token (t : Token) : bool :=
  match t with StringToken _ _ _ => true | _ => false end.

Definition string_text (t : Token) : option string :=
  match t with StringToken _ s _ => Some s | _ => None end.

(* ===================================================================== *)
(** ** plugins/hexcode.py                                                 *)
(* ===================================================================== *)

Module HexCode.

(** The locals of the scanning loop of on_tokenize. Between two
    iterations [hexcode] is None or a string. *)
Record scan : Type := Scan {
  escape : bool;
  hexcode : option string;
  text : string
}.

Definition initial : scan :=
  {| escape := false; hexcode := None; text := "" |}.

(** One iteration of [for c in token.text]. In the hex branch the
    [try] block first rebinds [hexcode] to the integer; when [chr] then
    raises ValueError the handler concatenates a string with that
    integer, which raises TypeError. *)
Definition scan_char (st : scan) (c : ascii) : result scan :=
  if escape st then
    if Ascii.eqb c "x" then
      Ok {| escape := false; hexcode := Some ""; text := text st |}
    else
      Ok {| escape := false; hexcode := hexcode st;
            text := text st +:+ String backslash (String c "") |}
  else
    match hexcode st with
    | Some h =>
        let h' := h +:+ String c "" in
        if Nat.eqb (String.length h') 2 then
          match int_base16 h' with
          | Ok n =>
              match chr n with
              | Ok ch =>
                  Ok {| escape := false; hexcode := None;
                        text := text st +:+ String ch "" |}
              | Raise (ValueError _) =>
                  Raise (TypeError "can only concatenate str to str")
              | Raise e => Raise e
              end
          | Raise (ValueError _) =>
              Ok {| escape := false; hexcode := Some h';
                    text := text st +:+ String backslash (String "x" h') |}
          | Raise e => Raise e
          end
        else
          Ok {| escape := false; hexcode := Some h'; text := text st |}
    | None =>
        if Ascii.eqb c backslash then
          Ok {| escape := true; hexcode := None; text := text st |}
        else
          Ok {| escape := false; hexcode := None;
                text := text st +:+ String c "" |}
    end.

Fixpoint scan_text (st : scan) (s : string) : result scan :=
  match s with
  | EmptyString => Ok st
  | String c r =>
      match scan_char st c with
      | Ok st' => scan_text st' r
      | Raise e => Raise e
      end
  end.

(** The two statements after the loop: [if hexcode:] and
    [if escape:]. *)
Definition finish (st : scan) : string :=
  let t1 :=
    match hexcode st with
    | Some h =>
        if truthy h then text st +:+ String backslash (String "x" h)
        else text st
    | None => text st
    end in
  if escape st then t1 +:+ String backslash "" else t1.

(** The new text of one token whose text holds a backslash. *)
Definition decode (s : string) : result string :=
  match scan_text initial s with
  | Ok st => Ok (finish st)
  | Raise e => Raise e
  end.

(** The tokens the loop skips. *)
Definition skipped (t : Token) : bool :=
  match t with
  | StringToken _ s _ => negb (contains backslash s)
  | _ => true
  end.

(** [on_tokenize(shell, tokens, origin)]. The tokens are rewritten in
    place and the list itself is returned, so the result is the
    contents of that list when the call ends together with the
    exception that ended it, if any: the tokens before the one that
    raised have been rewritten by then. *)
Fixpoint on_tokenize (tokens : list Token) : list Token * option exn :=
  match tokens with
  | [] => ([], None)
  | token :: rest =>
      match token with
      | StringToken i s q =>
          if contains backslash s then
            match decode s with
            | Ok s' =>
                let '(rest', e) := on_tokenize rest in
                (StringToken i s' q :: rest', e)
            | Raise e => (token :: rest, Some e)
            end
          else
            let '(rest', e) := on_tokenize rest in (token :: rest', e)
      | _ =>
          let '(rest', e) := on_tokenize rest in (token :: rest', e)
      end
  end.

End HexCode.

(* ===================================================================== *)
(** ** plugins/variable.py: subtokens                                     *)
(* ===================================================================== *)

Module Subtokens.

Definition VarChars : string :=
  "abcdefghijklmnopqrstuvwxyzABCDEFGHIJKLMNOPQRSTUVWXYZ0123456789_".

(** A VariableToken object: the attributes set by
    [VariableToken.__init__(self, prefix, index, var='')]. *)
Record vartok : Type := VarTok {
  vt_prefix : pyval;
  vt_index : pyval;
  vt_var : string
}.

Definition to_token (v : vartok) : Token :=
  VariableToken (vt_prefix v) (vt_index v) (vt_var v).

Inductive add_result : Type := TokenContinue | TokenEnd.

(** [VariableToken.add_char]. *)
Definition add_char (v : vartok) (c : ascii) : vartok * add_result :=
  if contains c VarChars then
    (VarTok (vt_prefix v) (vt_index v) (vt_var v +:+ String c ""),
     TokenContinue)
  else (v, TokenEnd).

(** What the local [subt] of get_subtokens holds: the empty string it
    starts with, None, or a StringToken object. *)
Inductive subt_val : Type :=
| SubtEmptyStr
| SubtNone
| SubtString (index : pyval) (text : string) (quote : option ascii).

(** [if subt:] *)
Definition subt_true (s : subt_val) : bool :=
  match s with SubtString _ _ _ => true | _ => false end.

(** [subt.text += x] *)
Definition subt_append (s : subt_val) (x : string) : result subt_val :=
  match s with
  | SubtString i t q => Ok (SubtString i (t +:+ x) q)
  | SubtEmptyStr =>
      Raise (AttributeError "'str' object has no attribute 'text'")
  | SubtNone =>
      Raise (AttributeError "'NoneType' object has no attribute 'text'")
  end.

Definition subt_yield (s : subt_val) : list Token :=
  match s with
  | SubtString i t q => [StringToken i t q]
  | _ => []
  end.

(** The locals of the generator. *)
Record gen : Type := Gen {
  escape : bool;
  index : pyval;
  subt : subt_val;
  var : option vartok
}.

Definition start (token_index : pyval) : gen :=
  {| escape := false; index := token_index;
     subt := SubtEmptyStr; var := None |}.

(** [index += 1] *)
Definition incr (v : pyval) : result pyval :=
  match v with
  | PyInt z => Ok (PyInt (z + 1))
  | PyStr _ => Raise (TypeError "can only concatenate str to str")
  end.

Section Scan.

(** The prefix character and the quote of the token being split. *)
Variable prefix : ascii.
Variable quote : option ascii.

(** The body of [for c in token.text] up to [index += 1]: the new
    locals and the tokens yielded, in order. *)
Definition body (st : gen) (c : ascii) : result (gen * list Token) :=
  if escape st then
    match (if Ascii.eqb c prefix then Ok (subt st)
           else subt_append (subt st) (String backslash "")) with
    | Raise e => Raise e
    | Ok s1 =>
        match subt_append s1 (String c "") with
        | Raise e => Raise e
        | Ok s2 =>
            Ok ({| escape := false; index := index st;
                   subt := s2; var := var st |}, [])
        end
    end
  else
    match var st with
    | Some v =>
        match add_char v c with
        | (v', TokenContinue) =>
            Ok ({| escape := false; index := index st;
                   subt := subt st; var := Some v' |}, [])
        | (v', TokenEnd) =>
            if Ascii.eqb c prefix then
              (* VariableToken(index, c) *)
              Ok ({| escape := false; index := index st;
                     subt := subt st;
                     var := Some (VarTok (index st) (PyStr (String c "")) "") |},
                  [to_token v'])
            else if Ascii.eqb c backslash then
              Ok ({| escape := true; index := index st;
                     subt := SubtString (index st) "" quote;
                     var := None |},
                  [to_token v'])
            else
              Ok ({| escape := false; index := index st;
                     subt := SubtString (index st) (String c "") quote;
                     var := None |},
                  [to_token v'])
        end
    | None =>
        if Ascii.eqb c prefix then
          (* VariableToken(c, index) *)
          Ok ({| escape := false; index := index st;
                 subt := if subt_true (subt st) then SubtNone else subt st;
                 var := Some (VarTok (PyStr (String c "")) (index st) "") |},
              subt_yield (subt st))
        else
          let esc := Ascii.eqb c backslash in
          let c' := if esc then "" else String c "" in
          match subt st with
          | SubtString i t q =>
              Ok ({| escape := esc; index := index st;
                     subt := SubtString i (t +:+ c') q;
                     var := None |}, [])
          | _ =>
              Ok ({| escape := esc; index := index st;
                     subt := SubtString (index st) c' quote;
                     var := None |}, [])
          end
    end.

(** One full iteration. *)
Definition step (st : gen) (c : ascii) : result (gen * list Token) :=
  match body st c with
  | Raise e => Raise e
  | Ok (st', ys) =>
      match incr (index st') with
      | Raise e => Raise e
      | Ok i' =>
          Ok ({| escape := escape st'; index := i';
                 subt := subt st'; var := var st' |}, ys)
      end
  end.

(** The loop: the locals when the text is exhausted and everything
    yielded on the way. *)
Fixpoint loop (st : gen) (s : string) : result (gen * list Token) :=
  match s with
  | EmptyString => Ok (st, [])
  | String c r =>
      match step st c with
      | Raise e => Raise e
      | Ok (st', ys) =>
          match loop st' r with
          | Raise e => Raise e
          | Ok (st'', zs) => Ok (st'', ys ++ zs)
          end
      end
  end.

(** The yields after the loop: [if subt: ... elif var: ...]. *)
Definition flush (st : gen) : list Token :=
  if subt_true (subt st) then subt_yield (subt st)
  else match var st with
       | Some v => [to_token v]
       | None => []
       end.

End Scan.

(** [get_subtokens(token, prefix)] for a StringToken with the given
    attributes: every token the generator yields, in order, or the
    exception that ends it. A yielded object is never touched again by
    the generator ([subt] and [var] are rebound right after the
    yield), so the consumer sees the values listed here. *)
Definition get_subtokens (tindex : pyval) (ttext : string)
    (tquote : option ascii) (prefix : ascii) : result (list Token) :=
  match loop prefix tquote (start tindex) ttext with
  | Raise e => Raise e
  | Ok (st, ys) => Ok (ys ++ flush st)
  end.

End Subtokens.

(* ===================================================================== *)
(** ** plugins/variable.py: the namespace, the plugin and the command     *)
(* ===================================================================== *)

Module Variables.

Import Subtokens.

Section Shell.

(** The part of the shell that the getters and setters of managed
    variables and the callables stored in the namespace read and
    write (prompt, errno, clock, ...). *)
Variable Host : Type.

(** [ManagedVariable(getter, setter=None)]. *)
Record ManagedVariable : Type := Managed {
  getter : Host -> string;
  setter : option (Host -> string -> Host * option exn)
}.

(** What a namespace entry holds: a plain string, a callable taking
    no argument, or a ManagedVariable. *)
Inductive value : Type :=
| Plain (s : string)
| Callable (f : Host -> string)
| ManagedVar (m : ManagedVariable).

(** Modelled from the spec: the namespace ([shell.ctx.vars], a
    ScopedNamespace of pypsi.namespace), a mapping from names to
    values; here with case-sensitive names, the default. *)
Abbreviation namespace := (gmap string value).

(** Calls to collaborators of pypsi.base and of the shell that are
    not part of these sources, recorded with their arguments:
    [self.usage_error(shell, ...)], [self.error(shell, ...)],
    [shell.warn(...)] and [shell.info(...)]. *)
Inductive call : Type :=
| UsageError (parts : list string)
| CmdError (parts : list string)
| ShellWarn (parts : list string)
| ShellInfo (parts : list string).

Record Shell : Type := MkShell {
  host : Host;
  vars : namespace;
  calls : list call
}.

Definition emit (sh : Shell) (c : call) : Shell :=
  {| host := host sh; vars := vars sh; calls := calls sh ++ [c] |}.

(** [ManagedVariable.set(shell, value)]: the host after the call and
    the exception raised, if any. *)
Definition managed_set (m : ManagedVariable) (h : Host) (v : string)
    : Host * option exn :=
  match setter m with
  | Some f => f h v
  | None => (h, Some (ValueError "read-only variable"))
  end.

(** [ManagedVariable.get(shell)]. *)
Definition managed_get (m : ManagedVariable) (h : Host) : string :=
  getter m h.

(** The resolution of a stored value, as in [expand] and in the
    listing of the var command. *)
Definition resolve (h : Host) (s : value) : string :=
  match s with
  | Callable f => f h
  | ManagedVar m => getter m h
  | Plain t => t
  end.

(* ----------------------------------------------------------------- *)
(** *** VariablePlugin                                                *)

(** [VariablePlugin.expand(shell, vart)]; reading [vart.var] of a
    token that is not a VariableToken raises AttributeError. *)
Definition expand (h : Host) (ns : namespace) (vart : Token)
    : result string :=
  match vart with
  | VariableToken _ _ name =>
      match ns !! name with
      | Some s => Ok (resolve h s)
      | None => Ok ""
      end
  | _ => Raise (AttributeError "token has no attribute 'var'")
  end.

(** The loop over [expanded.split()] of an unquoted token. *)
Fixpoint word_tokens (i : pyval) (ws : bool) (parts : list string)
    : list Token :=
  match parts with
  | [] => []
  | part :: rest =>
      (if ws then [WhitespaceToken i] else [])
      ++ StringToken i part None :: word_tokens i true rest
  end.

(** What one subtoken appends to [ret]. *)
Definition reassemble (h : Host) (ns : namespace)
    (tquote : option ascii) (subt : Token) : result (list Token) :=
  if is_string_token subt then Ok [subt]
  else
    match expand h ns subt with
    | Raise e => Raise e
    | Ok expanded =>
        match tquote with
        | Some q =>
            Ok [StringToken (token_index subt) expanded (Some q)]
        | None =>
            Ok (word_tokens (token_index subt) false (split expanded))
        end
    end.

Fixpoint reassemble_all (h : Host) (ns : namespace)
    (tquote : option ascii) (subts : list Token)
    : result (list Token) :=
  match subts with
  | [] => Ok []
  | subt :: rest =>
      match reassemble h ns tquote subt with
      | Raise e => Raise e
      | Ok ts =>
          match reassemble_all h ns tquote rest with
          | Raise e => Raise e
          | Ok us => Ok (ts ++ us)
          end
      end
  end.

(** [VariablePlugin.on_tokenize(shell, tokens, origin)] for a plugin
    with the given prefix character: the list [ret] it returns, or
    the exception that ends the call. *)
Fixpoint on_tokenize (prefix : ascii) (h : Host) (ns : namespace)
    (tokens : list Token) : result (list Token) :=
  match tokens with
  | [] => Ok []
  | token :: rest =>
      let here :=
        match token with
        | StringToken i s q =>
            if contains prefix s then
              match get_subtokens i s q prefix with
              | Raise e => Raise e
              | Ok subts => reassemble_all h ns q subts
              end
            else Ok [token]
        | _ => Ok [token]
        end in
      match here with
      | Raise e => Raise e
      | Ok ts =>
          match on_tokenize prefix h ns rest with
          | Raise e => Raise e
          | Ok us => Ok (ts ++ us)
          end
      end
  end.

(* ----------------------------------------------------------------- *)
(** *** VariableCommand                                               *)

Definition Usage : string :=
"usage: var name = value
   or: var -l
   or: var -d name
Manage local variables.".

(** Modelled from the spec: the Expression of pypsi.cmdline, an
    operand name, an operator and a value extracted from a flat
    argument list, each of which may be missing. *)
Record Expression : Type := MkExpression {
  operand : option string;
  operator : option string;
  exp_value : option string
}.

(** [Expression.parse(args)], which is not part of these sources:
    the arguments left over and the expression. *)
Variable parse : list string -> list string * Expression.

(** [e.message] on an exception object: exceptions carry [args],
    there is no attribute [message]. *)
Definition exn_message (e : exn) : result string :=
  Raise (AttributeError "'ValueError' object has no attribute 'message'").

Fixpoint spaces (n : nat) : string :=
  match n with
  | O => ""
  | S m => String " " (spaces m)
  end.

Definition name_le (a b : string * string) : Prop :=
  String.leb (fst a) (fst b) = true.

#[local] Instance name_le_dec (a b : string * string)
  : Decision (name_le a b).
Proof. unfold name_le. apply _. Defined.

(** The [-l] branch: the calls to [shell.info], one per variable,
    sorted by name. *)
Definition listing (h : Host) (ns : namespace) : list call :=
  let entries :=
    map (fun kv => (fst kv, resolve h (snd kv))) (map_to_list ns) in
  let col1 :=
    fold_left (fun m kv => Nat.max m (String.length (fst kv))) entries O in
  map (fun v =>
         ShellInfo [fst v; spaces (col1 - String.length (fst v));
                    "    "; snd v; String "010" ""])
      (merge_sort name_le entries).

(** The [try] statement that ends the assignment branch, up to the
    handler: the shell after it and the exception raised in it. *)
Definition assign (sh : Shell) (name v : string) : Shell * option exn :=
  match vars sh !! name with
  | Some (ManagedVar m) =>
      let '(h', e) := managed_set m (host sh) v in
      ({| host := h'; vars := vars sh; calls := calls sh |}, e)
  | _ =>
      ({| host := host sh; vars := <[name := Plain v]> (vars sh);
          calls := calls sh |}, None)
  end.

(** [VariableCommand.run(shell, args, ctx)]: the shell when the call
    ends, and the status returned or the exception raised. *)
Definition run (sh : Shell) (args : list string) : Shell * result Z :=
  match args with
  | [] => (emit sh (UsageError ["missing required argument"]), Ok 1)
  | a0 :: _ =>
      let count := List.length args in
      if String.eqb a0 "-h" then
        (emit sh (ShellWarn [Usage; String "010" ""]), Ok 0)
      else if String.eqb a0 "-l" then
        if negb (Nat.eqb count 1) then
          (emit (emit sh (CmdError ["invalid arguments" +:+ String "010" ""]))
                (ShellWarn [Usage]), Ok 1)
        else
          ({| host := host sh; vars := vars sh;
              calls := calls sh ++ listing (host sh) (vars sh) |}, Ok 0)
      else if String.eqb a0 "-d" then
        if negb (Nat.eqb count 2) then
          (emit (emit sh (CmdError ["invalid arguments" +:+ String "010" ""]))
                (ShellWarn [Usage]), Ok 1)
        else
          match args with
          | [_; name] =>
              ({| host := host sh; vars := delete name (vars sh);
                  calls := calls sh |}, Ok 0)
          | _ => (sh, Ok 0)
          end
      else
        let '(remaining, exp) := parse args in
        match remaining with
        | _ :: _ =>
            (emit sh (UsageError ["cannot set multiple variables"]), Ok 1)
        | [] =>
            match operand exp with
            | None => (emit sh (UsageError ["missing variable name"]), Ok 1)
            | Some name =>
                match operator exp with
                | None => (emit sh (UsageError ["missing operator"]), Ok 1)
                | Some op =>
                    if negb (String.eqb op "=") then
                      (emit sh (UsageError ["invalid operator "; op]), Ok 1)
                    else
                      let v := default "" (exp_value exp) in
                      match assign sh name v with
                      | (sh', Some (ValueError msg)) =>
                          (* except ValueError as e: *)
                          match exn_message (ValueError msg) with
                          | Raise e' => (sh', Raise e')
                          | Ok m =>
                              (emit sh' (CmdError
                                 ["error setting variable "; name; ": ";
                                  m; String "010" ""]), Ok 0)
                          end
                      | (sh', Some e) => (sh', Raise e)
                      | (sh', None) => (sh', Ok 0)
                      end
                end
            end
        end
  end.

End Shell.

Arguments Managed {Host} getter setter.
Arguments Plain {Host} s.
Arguments Callable {Host} f.
Arguments ManagedVar {Host} m.
Arguments MkShell {Host} host vars calls.
Arguments host {Host} _.
Arguments vars {Host} _.
Arguments calls {Host} _.
Arguments expand {Host} h ns vart.
Arguments reassemble {Host} h ns tquote subt.
Arguments reassemble_all {Host} h ns tquote subts.
Arguments on_tokenize {Host} prefix h ns tokens.
Arguments run {Host} parse sh args.
Arguments assign {Host} sh name v.
Arguments listing {Host} h ns.

End Variables.

(* ===================================================================== *)
(** ** pipes.py                                                           *)
(* ===================================================================== *)

Module Pipes.

Section Streams.

(** The underlying stream objects, and their [isatty()]. *)
Variable Stream : Type.
Variable stream_isatty : Stream -> bool.

(** The tuple (target, width, isatty). *)
Definition triple : Type := Stream * option Z * option bool.

(** A ThreadLocalStream: the canonical tuple [_target] and the dict
    [_proxies], keyed by [threading.Thread.ident]. *)
Record ThreadLocalStream : Type := MkStream {
  _target : triple;
  _proxies : gmap Z triple
}.

(** [ThreadLocalStream(target, width=None, isatty=None)] *)
Definition new_stream (target : Stream) (width : option Z)
    (isatty : option bool) : ThreadLocalStream :=
  {| _target := (target, width, isatty); _proxies := ∅ |}.

(** The methods below take [cur], the value of
    [threading.current_thread().ident] in the calling thread. *)

Definition _get_target (s : ThreadLocalStream) (cur : Z) : triple :=
  default (_target s) (_proxies s !! cur).

Definition _get_target_stream (s : ThreadLocalStream) (cur : Z) : Stream :=
  fst (fst (_get_target s cur)).

Definition width (s : ThreadLocalStream) (cur : Z) : option Z :=
  snd (fst (_get_target s cur)).

Definition isatty (s : ThreadLocalStream) (cur : Z) : bool :=
  let t := _get_target s cur in
  match snd t with
  | Some b => b
  | None => stream_isatty (fst (fst t))
  end.

Definition _proxy (s : ThreadLocalStream) (cur : Z) (target : Stream)
    (width : option Z) (isatty : option bool) : ThreadLocalStream :=
  {| _target := _target s;
     _proxies := <[cur := (target, width, isatty)]> (_proxies s) |}.

(** [ident or threading.current_thread().ident]: None and 0 are
    false. *)
Definition ident_or (ident : option Z) (cur : Z) : Z :=
  match ident with
  | Some k => if Z.eqb k 0 then cur else k
  | None => cur
  end.

Definition _unproxy (s : ThreadLocalStream) (cur : Z)
    (ident : option Z) : ThreadLocalStream :=
  let ident := ident_or ident cur in
  match _proxies s !! ident with
  | Some _ =>
      {| _target := _target s; _proxies := delete ident (_proxies s) |}
  | None => s
  end.

End Streams.

Arguments MkStream {Stream} _ _.
Arguments _target {Stream} _.
Arguments _proxies {Stream} _.
Arguments new_stream {Stream} target width isatty.
Arguments _get_target {Stream} s cur.
Arguments _get_target_stream {Stream} s cur.
Arguments width {Stream} s cur.
Arguments isatty {Stream} stream_isatty s cur.
Arguments _proxy {Stream} s cur target width isatty.
Arguments _unproxy {Stream} s cur ident.

Section Threads.

(** Modelled from the spec: a CommandInvocation of pypsi.cmdline,
    one pipeline stage with its stream handles. Calling it runs the
    command; [close_streams()] closes its streams. Both act on the
    invocation object and may raise. *)
Variable Invocation : Type.
Variable call_invoke : Invocation -> Invocation * result Z.
Variable close_streams : Invocation -> Invocation * option exn.

(** The life cycle of a [threading.Thread]; [is_alive()] holds from
    the moment [run] starts until just after it ends. *)
Inductive life : Type := NotStarted | Running | Finished.

Record InvocationThread : Type := MkThread {
  life_of : life;
  invoke : Invocation;
  exc_info : option exn;
  rc : option Z
}.

Definition is_alive (t : InvocationThread) : bool :=
  match life_of t with Running => true | _ => false end.

(** [InvocationThread.run()] *)
Definition run (t : InvocationThread) : InvocationThread :=
  match call_invoke (invoke t) with
  | (inv', Ok code) =>
      {| life_of := life_of t; invoke := inv';
         exc_info := exc_info t; rc := Some code |}
  | (inv', Raise e) =>
      {| life_of := life_of t; invoke := inv';
         exc_info := Some e; rc := None |}
  end.

(** What a call to [stop()] does: the thread object afterwards, the
    invocations [close_streams] was called on, and the exception
    that leaves [stop], if any. *)
Record stopped : Type := MkStopped {
  thread_after : InvocationThread;
  closed : list Invocation;
  raised : option exn
}.

(** [InvocationThread.stop()]; the bare [except:] clause catches
    whatever [close_streams] raises. *)
Definition stop (t : InvocationThread) : stopped :=
  if is_alive t then
    let '(inv', _) := close_streams (invoke t) in
    {| thread_after :=
         {| life_of := life_of t; invoke := inv';
            exc_info := exc_info t; rc := rc t |};
       closed := [invoke t];
       raised := None |}
  else
    {| thread_after := t; closed := []; raised := None |}.

End Threads.

Arguments MkThread {Invocation} _ _ _ _.
Arguments life_of {Invocation} _.
Arguments invoke {Invocation} _.
Arguments exc_info {Invocation} _.
Arguments rc {Invocation} _.
Arguments is_alive {Invocation} t.
Arguments run {Invocation} call_invoke t.
Arguments stop {Invocation} close_streams t.
Arguments MkStopped {Invocation} _ _ _.
Arguments thread_after {Invocation} _.
Arguments closed {Invocation} _.
Arguments raised {Invocation} _.

End Pipes.

(* ===================================================================== *)
(** ** Auxiliary definitions used in the statements                       *)
(* ===================================================================== *)

(** Every code point of the model, for exhaustive checks. *)
Definition all_codes : list ascii := map ascii_of_nat (seq 0 256).

Definition all_ascii (P : ascii -> bool) : bool := forallb P all_codes.

(** Two tokens that differ at most in the text of a StringToken. *)
Definition same_but_text (t t' : Token) : Prop :=
  match t, t' with
  | StringToken i _ q, StringToken i' _ q' => i = i' /\ q = q'
  | _, _ => t = t'
  end.

(** The decoder in its normal state, having emitted [t]. *)
Definition normal (t : string) : HexCode.scan :=
  {| HexCode.escape := false; HexCode.hexcode := None; HexCode.text := t |}.

(** The decoder collecting the digits [h] of an escape. *)
Definition collecting (h t : string) : HexCode.scan :=
  {| HexCode.escape := false; HexCode.hexcode := Some h; HexCode.text := t |}.

(** The text [\x] followed by [s]. *)
Definition esc_x (s : string) : string := String backslash (String "x" s).

(** Every character of [s] satisfies [P]. *)
Fixpoint str_all (P : ascii -> bool) (s : string) : bool :=
  match s with
  | EmptyString => true
  | String c r => P c && str_all P r
  end.

(** A variable name: characters of VarChars only. *)
Definition is_name (s : string) : bool :=
  str_all (fun c => contains c Subtokens.VarChars) s.

(** Literal text for a given prefix: neither the prefix nor a backslash
    occurs in it. *)
Definition is_literal (prefix : ascii) (s : string) : bool :=
  str_all (fun c => negb (Ascii.eqb c prefix) && negb (Ascii.eqb c backslash)) s.

(** The states of the generator from which the scan cannot fail: the
    offset is an integer, and a pending backslash has a string subtoken
    to go to. *)
Definition good (st : Subtokens.gen) : Prop :=
  is_int (Subtokens.index st) = true /\
  (Subtokens.escape st = true ->
   Subtokens.subt_true (Subtokens.subt st) = true).

(** The generator yields string and variable tokens only. *)
Definition is_subtoken (t : Token) : bool :=
  match t with
  | StringToken _ _ _ | VariableToken _ _ _ => true
  | _ => false
  end.

(** The text a reference to [name] expands to. *)
Definition lookup_text {Host : Type} (h : Host)
    (ns : gmap string (Variables.value Host)) (name : string) : string :=
  match ns !! name with
  | Some s => Variables.resolve Host h s
  | None => EmptyString
  end.

(** What a subtoken of a quoted token becomes: a reference becomes one
    quoted string token holding the expansion as it is. *)
Definition quoted_image {Host : Type} (h : Host)
    (ns : gmap string (Variables.value Host)) (q : ascii) (t : Token) : Token :=
  match t with
  | VariableToken _ idx name => StringToken idx (lookup_text h ns name) (Some q)
  | _ => t
  end.

(** What a subtoken of an unquoted token becomes: a reference becomes
    the words of its expansion. *)
Definition unquoted_image {Host : Type} (h : Host)
    (ns : gmap string (Variables.value Host)) (t : Token) : list Token :=
  match t with
  | VariableToken _ idx name =>
      Variables.word_tokens idx false (split (lookup_text h ns name))
  | _ => [t]
  end.

(** A word: not empty, no white space in it. *)
Definition is_word (w : string) : bool :=
  truthy w && str_all (fun c => negb (is_space c)) w.

(** Words separated by single spaces. *)
Fixpoint join_words (ws : list string) : string :=
  match ws with
  | [] => EmptyString
  | [w] => w
  | w :: rest => w +:+ String " " (join_words rest)
  end.

Fixpoint count_spaces (s : string) : nat :=
  match s with
  | EmptyString => O
  | String c r => ((if Ascii.eqb c " " then 1 else 0) + count_spaces r)%nat
  end.

Definition count_string_tokens (ts : list Token) : nat :=
  List.length (List.filter is_string_token ts).

Definition is_whitespace_token (t : Token) : bool :=
  match t with WhitespaceToken _ => true | _ => false end.

Definition count_whitespace_tokens (ts : list Token) : nat :=
  List.length (List.filter is_whitespace_token ts).

(** A token without its source offset. *)
Definition erase_index (t : Token) : Token :=
  match t with
  | StringToken _ s q => StringToken (PyInt 0) s q
  | WhitespaceToken _ => WhitespaceToken (PyInt 0)
  | OperatorToken _ o => OperatorToken (PyInt 0) o
  | VariableToken _ _ v => VariableToken (PyInt 0) (PyInt 0) v
  end.

(** Modelled from the spec: [Expression.parse] of pypsi.cmdline on an
    argument list in which the operand, the operator and the value are
    separate arguments; it extracts operand, operator and value from the
    flat list and returns the arguments it did not use. *)
Definition parse_args (args : list string)
    : list string * Variables.Expression :=
  match args with
  | [] => ([], Variables.MkExpression None None None)
  | [n] => ([], Variables.MkExpression (Some n) None None)
  | [n; op] => ([], Variables.MkExpression (Some n) (Some op) None)
  | n :: op :: v :: rest =>
      (rest, Variables.MkExpression (Some n) (Some op) (Some v))
  end.

(** A namespace for the examples: [a], [b] and [name] hold one word
    each, [v] holds two words with two spaces between them, [greeting]
    three words with single spaces between them, [prompt] is a managed
    variable without a setter; [undefined] is not bound. *)
Definition example_ns : gmap string (Variables.value unit) :=
  <["a" := Variables.Plain "x"]>
    (<["b" := Variables.Plain "y"]>
      (<["name" := Variables.Plain "World"]>
        (<["v" := Variables.Plain "a  b"]>
         (<["greeting" := Variables.Plain "hello big world"]>
          (<["prompt" := Variables.ManagedVar
                (Variables.Managed (fun _ => "> ") None)]> ∅))))).

Definition example_shell : Variables.Shell unit :=
  Variables.MkShell tt example_ns [].

(** The text read after a pending backslash holds no hexadecimal
    escape: its first character, if any, is not [x], and what follows
    holds none. *)
Fixpoint no_hex_escape_from (pending : bool) (s : string) : bool :=
  match s with
  | EmptyString => true
  | String c r =>
      if pending then negb (Ascii.eqb c "x") && no_hex_escape_from false r
      else no_hex_escape_from (Ascii.eqb c backslash) r
  end.

(** No backslash of the text introduces a hexadecimal escape: the
    character escaped by a backslash is never [x]. *)
Definition no_hex_escape (s : string) : bool := no_hex_escape_from false s.

(** The new text of a token when the scan starts in state [st]. *)
Definition decode_from (st : HexCode.scan) (s : string) : result string :=
  match HexCode.scan_text st s with
  | Ok st' => Ok (HexCode.finish st')
  | Raise e => Raise e
  end.

(** The piece of the token text a subtoken stands for: the text of a
    string token, the prefix and the name of a variable token. *)
Definition render (prefix : ascii) (t : Token) : string :=
  match t with
  | StringToken _ s _ => s
  | VariableToken _ _ name => String prefix name
  | _ => EmptyString
  end.

Definition render_all (prefix : ascii) (ts : list Token) : string :=
  fold_right (fun t acc => render prefix t +:+ acc) EmptyString ts.

(** The piece of text held in the locals of the generator and not yet
    yielded. *)
Definition pending_text (prefix : ascii) (st : Subtokens.gen) : string :=
  match Subtokens.subt st with
  | Subtokens.SubtString _ t _ => t
  | _ =>
      match Subtokens.var st with
      | Some v => String prefix (Subtokens.vt_var v)
      | None => EmptyString
      end
  end.

(** A token the variable plugin passes on as it is: not a string token,
    or a string token whose text does not hold the prefix. *)
Definition no_reference (prefix : ascii) (t : Token) : bool :=
  match t with
  | StringToken _ s _ => negb (contains prefix s)
  | _ => true
  end.

(** A string token as the tokenizer builds it, with an integer offset. *)
Definition int_indexed (t : Token) : bool :=
  match t with
  | StringToken i _ _ => is_int i
  | _ => true
  end.

(** A string token that holds one unquoted word at the given offset. *)
Definition is_word_token (i : pyval) (t : Token) : Prop :=
  match t with
  | StringToken j s q => j = i /\ q = None /\ is_word s = true
  | WhitespaceToken j => j = i
  | _ => False
  end.

(** The characters [A-Za-z0-9_], by code point. *)
Definition is_name_char (c : ascii) : bool :=
  let n := code c in
  ((48 <=? n) && (n <=? 57)) || ((65 <=? n) && (n <=? 90))
  || ((97 <=? n) && (n <=? 122)) || (n =? 95).

(** The last value given to [k] in a list of pairs, if any. *)
Fixpoint last_binding {A : Type} (k : string) (l : list (string * A))
    : option A :=
  match l with
  | [] => None
  | (k', v) :: rest =>
      match last_binding k rest with
      | Some w => Some w
      | None => if String.eqb k k' then Some v else None
      end
  end.

(** Modelled from the spec: the namespace that
    [VariablePlugin.__init__] builds, a mapping seeded from the process
    environment [os.environ] (names to strings) in which every pair of
    [locals] is then stored in turn with [self.namespace[k] = v]. *)
Definition init_namespace {Host : Type} (environ : gmap string string)
    (locals : list (string * Variables.value Host))
    : gmap string (Variables.value Host) :=
  fold_left (fun ns kv => <[fst kv := snd kv]> ns) locals
            (Variables.Plain <$> environ).

(** One row of the listing of the var command, in a first column of
    width [w]. *)
Definition listing_row (w : nat) (v : string * string) : Variables.call :=
  Variables.ShellInfo
    [fst v; Variables.spaces (w - String.length (fst v)); "    "; snd v;
     String "010" EmptyString].

(** A shell whose host is its prompt, with a managed variable [prompt]
    that reads it and whose setter replaces it. *)
Definition prompt_var : Variables.ManagedVariable string :=
  Variables.Managed (fun p => p) (Some (fun _ v => (v, None))).

Definition prompt_shell (p : string) : Variables.Shell string :=
  Variables.MkShell p (<["prompt" := Variables.ManagedVar prompt_var]> ∅) [].

(* ===================================================================== *)
(** ** Facts about the runtime                                            *)
(* ===================================================================== *)

#[local] Arguments Ascii.eqb : simpl never.
#[local] Arguments String.eqb : simpl never.

Lemma all_ascii_spec (P : ascii -> bool) :
  all_ascii P = true -> forall c, P c = true.
Proof.
  unfold all_ascii, all_codes. intros H c.
  rewrite forallb_forall in H. apply H.
  rewrite <- (ascii_nat_embedding c).
  apply in_map, in_seq. pose proof (nat_ascii_bounded c). lia.
Qed.

Lemma str_app_cons (c : ascii) (s t : string) :
  String c s +:+ t = String c (s +:+ t).
Proof. reflexivity. Qed.

Lemma str_app_nil_l (s : string) : EmptyString +:+ s = s.
Proof. reflexivity. Qed.

Lemma str_app_nil_r (s : string) : s +:+ EmptyString = s.
Proof.
  induction s as [|c s IH]; [reflexivity|].
  now rewrite str_app_cons, IH.
Qed.

Lemma str_app_assoc (a b c : string) : (a +:+ b) +:+ c = a +:+ (b +:+ c).
Proof.
  induction a as [|x a IH]; [reflexivity|].
  now rewrite !str_app_cons, IH.
Qed.


(** A two-character literal made of hexadecimal digits denotes
    [16 * d1 + d2]. *)
Lemma int_base16_two_digits (c1 c2 : ascii) (d1 d2 : Z) :
  hex_digit c1 = Some d1 -> hex_digit c2 = Some d2 ->
  int_base16 (String c1 (String c2 "")) = Ok (16 * d1 + d2).
Proof.
  intros H1 H2.
  assert (Hall : all_ascii (fun a => all_ascii (fun b =>
            match hex_digit a, hex_digit b with
            | Some x, Some y =>
                match int_base16 (String a (String b "")) with
                | Ok n => Z.eqb n (16 * x + y)
                | Raise _ => false
                end
            | _, _ => true
            end)) = true) by (vm_compute; reflexivity).
  pose proof (all_ascii_spec _ (all_ascii_spec _ Hall c1) c2) as H.
  cbv beta in H. rewrite H1, H2 in H.
  destruct (int_base16 (String c1 (String c2 ""))); [|discriminate].
  apply Z.eqb_eq in H. now subst.
Qed.

(** The value of a two-character literal is below 256, so that [chr]
    is only applied to code points of the model or to negative numbers. *)
Lemma int_base16_two_lt_256 (c1 c2 : ascii) (n : Z) :
  int_base16 (String c1 (String c2 "")) = Ok n -> -16 < n < 256.
Proof.
  intros Hn.
  assert (Hall : all_ascii (fun a => all_ascii (fun b =>
            match int_base16 (String a (String b "")) with
            | Ok n => (-16 <? n) && (n <? 256)
            | Raise _ => true
            end)) = true) by (vm_compute; reflexivity).
  pose proof (all_ascii_spec _ (all_ascii_spec _ Hall c1) c2) as H.
  cbv beta in H. rewrite Hn in H.
  apply andb_true_iff in H. destruct H as [Ha Hb].
  apply Z.ltb_lt in Ha, Hb. lia.
Qed.

Lemma hex_digit_range (c : ascii) (d : Z) :
  hex_digit c = Some d -> 0 <= d < 16.
Proof.
  unfold hex_digit. intros H.
  repeat match type of H with
         | (if ?b then _ else _) = _ => destruct b eqn:?
         end; inversion H; subst; lia.
Qed.

(** The only exception [int_base16] raises is ValueError. *)
Lemma int_base16_raises (s : string) (e : exn) :
  int_base16 s = Raise e -> exists m, e = ValueError m.
Proof.
  unfold int_base16.
  destruct (match rstrip (lstrip s) with
            | String "+" r => (false, r)
            | String "-" r => (true, r)
            | _ => (false, rstrip (lstrip s))
            end) as [neg u].
  match goal with |- context [digits16 ?d 0 false] =>
    destruct (digits16 d 0 false) end; intros H; inversion H; eauto.
Qed.

(* ===================================================================== *)
(** ** Facts about the escape decoder                                     *)
(* ===================================================================== *)

Module HexCodeFacts.

Import HexCode.

Lemma scan_text_app (st : scan) (a b : string) :
  scan_text st (a +:+ b) =
  match scan_text st a with
  | Ok st' => scan_text st' b
  | Raise e => Raise e
  end.
Proof.
  revert st. induction a as [|c a IH]; intros st; [reflexivity|].
  rewrite str_app_cons. simpl.
  destruct (scan_char st c); [apply IH | reflexivity].
Qed.

(** Text without a backslash goes through unchanged. *)
Lemma scan_plain (t s : string) :
  contains backslash s = false ->
  scan_text (normal t) s = Ok (normal (t +:+ s)).
Proof.
  revert t. induction s as [|c s IH]; intros t H.
  - simpl. now rewrite str_app_nil_r.
  - simpl in H. destruct (Ascii.eqb backslash c) eqn:E; [discriminate|].
    simpl. unfold scan_char at 1. simpl.
    rewrite Ascii.eqb_sym, E.
    fold (normal (t +:+ String c EmptyString)).
    rewrite IH by assumption.
    now rewrite str_app_assoc.
Qed.

Lemma decode_plain (s : string) :
  contains backslash s = false -> decode s = Ok s.
Proof.
  intros H. unfold decode. change initial with (normal EmptyString).
  now rewrite scan_plain.
Qed.

(** The state after the backslash of an escape. *)
Lemma scan_char_backslash (t : string) :
  scan_char (normal t) backslash =
  Ok {| escape := true; hexcode := None; text := t |}.
Proof. reflexivity. Qed.

Lemma scan_char_x (t : string) :
  scan_char {| escape := true; hexcode := None; text := t |} "x" =
  Ok (collecting EmptyString t).
Proof. reflexivity. Qed.

Lemma scan_char_first_digit (t : string) (c : ascii) :
  scan_char (collecting EmptyString t) c =
  Ok (collecting (String c EmptyString) t).
Proof. reflexivity. Qed.

Lemma scan_esc_x (t rest : string) :
  scan_text (normal t) (esc_x rest) = scan_text (collecting EmptyString t) rest.
Proof. reflexivity. Qed.

(** A valid escape read in the normal state: the character of that
    code point is emitted and the decoder is back in the normal
    state. *)
Lemma scan_valid_escape (t rest : string) (c1 c2 : ascii) (d1 d2 : Z) :
  hex_digit c1 = Some d1 -> hex_digit c2 = Some d2 ->
  scan_text (normal t) (esc_x (String c1 (String c2 rest))) =
  scan_text
    (normal (t +:+ String (ascii_of_nat (Z.to_nat (16 * d1 + d2)))
                     EmptyString)) rest.
Proof.
  intros H1 H2. rewrite scan_esc_x.
  cbn [scan_text]. rewrite scan_char_first_digit.
  unfold scan_char at 1. cbn [escape hexcode text collecting].
  rewrite str_app_cons, str_app_nil_l. cbn [String.length Nat.eqb].
  rewrite (int_base16_two_digits _ _ _ _ H1 H2).
  apply hex_digit_range in H1, H2.
  unfold chr.
  replace ((0 <=? 16 * d1 + d2) && (16 * d1 + d2 <? 256)) with true
    by (symmetry; apply andb_true_iff; split;
        [apply Z.leb_le | apply Z.ltb_lt]; lia).
  reflexivity.
Qed.




(** The effect of [on_tokenize] on the token list, whether it returns
    or raises: same tokens in the same order, only the text of string
    tokens may differ, and the skipped tokens are untouched. *)
Lemma on_tokenize_frame (tokens : list Token) :
  Forall2 (fun t t' => same_but_text t t' /\ (skipped t = true -> t' = t))
          tokens (fst (on_tokenize tokens)).
Proof.
  induction tokens as [|t tokens IH]; simpl; [constructor|].
  assert (Hrefl : forall l : list Token,
    Forall2 (fun t t' => same_but_text t t' /\ (skipped t = true -> t' = t))
            l l).
  { induction l as [|x l IHl]; constructor; [|assumption].
    split; [|reflexivity]. destruct x; simpl; auto. }
  destruct t as [i s q|i|i o|p i v]; simpl.
  - destruct (contains backslash s) eqn:E.
    + destruct (decode s) as [s'|e].
      * destruct (on_tokenize tokens) as [rest' e']. simpl in *.
        constructor; [|assumption]. split; simpl; [auto|].
        rewrite E. discriminate.
      * simpl. apply Hrefl.
    + destruct (on_tokenize tokens) as [rest' e']. simpl in *.
      constructor; [|assumption]. split; simpl; auto.
  - destruct (on_tokenize tokens) as [rest' e']. simpl in *.
    constructor; [|assumption]. split; simpl; auto.
  - destruct (on_tokenize tokens) as [rest' e']. simpl in *.
    constructor; [|assumption]. split; simpl; auto.
  - destruct (on_tokenize tokens) as [rest' e']. simpl in *.
    constructor; [|assumption]. split; simpl; auto.
Qed.

End HexCodeFacts.

(* ===================================================================== *)
(** ** Facts about get_subtokens                                          *)
(* ===================================================================== *)

Module SubtokensFacts.

Import Subtokens.

Section Scan.

Variable prefix : ascii.
Variable quote : option ascii.

Ltac body_done :=
  eexists _, _;
  split; [reflexivity|]; split; [reflexivity|];
  split; [simpl; try discriminate; auto | simpl; repeat constructor].

Lemma subt_append_string (s : subt_val) :
  subt_true s = true -> forall x,
  exists i t q, s = SubtString i t q /\
                subt_append s x = Ok (SubtString i (t +:+ x) q).
Proof.
  destruct s as [| |i t q]; simpl; try discriminate. eauto.
Qed.

(** From a good state the body of the loop raises nothing, yields
    string and variable tokens only, and leaves a state in which a
    pending backslash has its string subtoken. *)
Lemma body_good (st : gen) (c : ascii) :
  good st ->
  exists st' ys,
    body prefix quote st c = Ok (st', ys) /\
    index st' = index st /\
    (escape st' = true -> subt_true (subt st') = true) /\
    Forall (fun t => is_subtoken t = true) ys.
Proof.
  intros [Hi He]. unfold body.
  destruct (escape st) eqn:Eesc.
  - destruct (subt_append_string (subt st) (He eq_refl)
                (String backslash EmptyString)) as (i & t & q & Hs & Ha).
    destruct (Ascii.eqb c prefix).
    + rewrite Hs. simpl. body_done.
    + rewrite Ha. simpl. body_done.
  - destruct (var st) as [v|].
    + unfold add_char. destruct (contains c VarChars); [body_done|].
      destruct (Ascii.eqb c prefix);
        [|destruct (Ascii.eqb c backslash)]; body_done.
    + destruct (Ascii.eqb c prefix); destruct (subt st); body_done.
Qed.

Lemma step_good (st : gen) (c : ascii) :
  good st ->
  exists st' ys,
    step prefix quote st c = Ok (st', ys) /\ good st' /\
    Forall (fun t => is_subtoken t = true) ys.
Proof.
  intros Hg. destruct (body_good st c Hg) as (st' & ys & Hb & Hi & He & Hy).
  unfold step. rewrite Hb.
  destruct Hg as [Hint _]. rewrite Hi.
  destruct (index st) as [z|]; [|discriminate]. simpl.
  eexists _, _. repeat split; simpl; auto.
Qed.

(** The scan of a whole text never raises when it starts in a good
    state. *)
Lemma loop_good (s : string) : forall st,
  good st ->
  exists st' ys,
    loop prefix quote st s = Ok (st', ys) /\ good st' /\
    Forall (fun t => is_subtoken t = true) ys.
Proof.
  induction s as [|c s IH]; intros st Hg.
  - simpl. eauto.
  - simpl. destruct (step_good st c Hg) as (st1 & ys & Hs & Hg1 & Hy).
    rewrite Hs. destruct (IH st1 Hg1) as (st2 & zs & Hl & Hg2 & Hz).
    rewrite Hl. eexists _, _. repeat split; try apply Hg2.
    apply Forall_app. auto.
Qed.

Lemma flush_subtokens (st : gen) :
  Forall (fun t => is_subtoken t = true) (flush st).
Proof.
  unfold flush. destruct (subt st); simpl; auto.
  all: destruct (var st); simpl; auto.
Qed.

Lemma loop_app (a b : string) : forall st,
  loop prefix quote st (a +:+ b) =
  match loop prefix quote st a with
  | Raise e => Raise e
  | Ok (st', ys) =>
      match loop prefix quote st' b with
      | Raise e => Raise e
      | Ok (st'', zs) => Ok (st'', ys ++ zs)
      end
  end.
Proof.
  induction a as [|c a IH]; intros st.
  - rewrite str_app_nil_l. simpl.
    destruct (loop prefix quote st b) as [[st' zs]|]; reflexivity.
  - rewrite str_app_cons. simpl.
    destruct (step prefix quote st c) as [[st1 ys]|]; [|reflexivity].
    rewrite IH.
    destruct (loop prefix quote st1 a) as [[st2 zs]|]; [|reflexivity].
    destruct (loop prefix quote st2 b) as [[st3 us]|]; [|reflexivity].
    now rewrite app_assoc.
Qed.

(** Reading the characters of a name while a variable is open: they
    are added to the name and nothing is yielded. *)
Lemma loop_name (name : string) : forall (k : Z) (s : subt_val) (v : vartok),
  is_name name = true ->
  loop prefix quote
    {| escape := false; index := PyInt k; subt := s; var := Some v |} name =
  Ok ({| escape := false;
         index := PyInt (k + Z.of_nat (String.length name));
         subt := s;
         var := Some (VarTok (vt_prefix v) (vt_index v)
                        (vt_var v +:+ name)) |}, []).
Proof.
  induction name as [|c name IH]; intros k s v Hn.
  - simpl. rewrite str_app_nil_r, Z.add_0_r. now destruct v.
  - simpl in Hn. apply andb_true_iff in Hn. destruct Hn as [Hc Hn].
    cbn [loop]. unfold step, body. cbn [escape var index subt].
    unfold add_char. rewrite Hc. cbn [incr index escape subt var].
    rewrite IH by assumption. cbn [vt_prefix vt_index vt_var].
    rewrite str_app_assoc, str_app_cons, str_app_nil_l.
    replace (k + Z.of_nat (String.length (String c name)))
      with (k + 1 + Z.of_nat (String.length name))
      by (cbn [String.length]; lia).
    reflexivity.
Qed.

(** Reading literal text while a string subtoken is open: it is
    added to the subtoken and nothing is yielded. *)
Lemma loop_literal (lit : string) :
  forall (k : Z) (i : pyval) (t : string) (q : option ascii),
  is_literal prefix lit = true ->
  loop prefix quote
    {| escape := false; index := PyInt k;
       subt := SubtString i t q; var := None |} lit =
  Ok ({| escape := false;
         index := PyInt (k + Z.of_nat (String.length lit));
         subt := SubtString i (t +:+ lit) q; var := None |}, []).
Proof.
  induction lit as [|c lit IH]; intros k i t q Hl.
  - simpl. now rewrite str_app_nil_r, Z.add_0_r.
  - simpl in Hl. apply andb_true_iff in Hl. destruct Hl as [Hc Hl].
    apply andb_true_iff in Hc. destruct Hc as [Hp Hb].
    apply negb_true_iff in Hp, Hb.
    cbn [loop]. unfold step, body. cbn [escape var index subt].
    rewrite Hp, Hb. cbn [incr index escape subt var].
    rewrite IH by assumption.
    rewrite str_app_assoc, str_app_cons, str_app_nil_l.
    replace (k + Z.of_nat (String.length (String c lit)))
      with (k + 1 + Z.of_nat (String.length lit))
      by (cbn [String.length]; lia).
    reflexivity.
Qed.

End Scan.

(** [get_subtokens] on a token whose offset is an integer returns, and
    yields string and variable tokens only. *)
Lemma get_subtokens_total (i : Z) (text : string) (q : option ascii)
    (prefix : ascii) :
  exists subts,
    get_subtokens (PyInt i) text q prefix = Ok subts /\
    Forall (fun t => is_subtoken t = true) subts.
Proof.
  unfold get_subtokens.
  destruct (loop_good prefix q text (start (PyInt i))) as (st & ys & Hl & _ & Hy).
  { split; simpl; [reflexivity | discriminate]. }
  rewrite Hl. eexists. split; [reflexivity|].
  apply Forall_app. split; [assumption | apply flush_subtokens].
Qed.

End SubtokensFacts.

(* ===================================================================== *)
(** ** Facts about word splitting and re-assembly                         *)
(* ===================================================================== *)

Module VariablesFacts.

Import Subtokens Variables.

Lemma split_from_word (w : string) : forall (r cur : string),
  str_all (fun c => negb (is_space c)) w = true ->
  split_from (w +:+ r) cur = split_from r (cur +:+ w).
Proof.
  induction w as [|c w IH]; intros r cur Hw.
  - now rewrite str_app_nil_l, str_app_nil_r.
  - simpl in Hw. apply andb_true_iff in Hw. destruct Hw as [Hc Hw].
    apply negb_true_iff in Hc.
    rewrite str_app_cons. cbn [split_from]. rewrite Hc.
    rewrite IH by assumption.
    now rewrite str_app_assoc, str_app_cons, str_app_nil_l.
Qed.

(** A text made of words separated by single spaces splits into those
    words. *)
Lemma split_join_words (ws : list string) :
  Forall (fun w => is_word w = true) ws ->
  split (join_words ws) = ws.
Proof.
  unfold split. induction ws as [|w ws IH]; intros H; [reflexivity|].
  inversion H as [|? ? Hw Hws]; subst.
  unfold is_word in Hw. apply andb_true_iff in Hw. destruct Hw as [Ht Ha].
  destruct ws as [|w' ws].
  - cbn [join_words]. rewrite <- (str_app_nil_r w) at 1.
    rewrite split_from_word by assumption.
    rewrite str_app_nil_l. cbn [split_from]. now rewrite Ht.
  - change (join_words (w :: w' :: ws))
      with (w +:+ String " " (join_words (w' :: ws))).
    rewrite split_from_word by assumption.
    rewrite str_app_nil_l. cbn [split_from].
    change (is_space " ") with true. cbn iota. rewrite Ht.
    now rewrite (IH Hws).
Qed.

Lemma count_spaces_app (a b : string) :
  count_spaces (a +:+ b) = (count_spaces a + count_spaces b)%nat.
Proof.
  induction a as [|c a IH]; [reflexivity|].
  rewrite str_app_cons. cbn [count_spaces]. rewrite IH. lia.
Qed.

Lemma count_spaces_word (w : string) :
  str_all (fun c => negb (is_space c)) w = true -> count_spaces w = O.
Proof.
  induction w as [|c w IH]; intros H; [reflexivity|].
  simpl in H. apply andb_true_iff in H. destruct H as [Hc Hw].
  cbn [count_spaces]. rewrite (IH Hw).
  destruct (Ascii.eqb c " ") eqn:E; [|reflexivity].
  apply Ascii.eqb_eq in E. subst c. discriminate.
Qed.

Lemma count_spaces_join (ws : list string) :
  Forall (fun w => is_word w = true) ws ->
  count_spaces (join_words ws) = (List.length ws - 1)%nat.
Proof.
  induction ws as [|w ws IH]; intros H; [reflexivity|].
  inversion H as [|? ? Hw Hws]; subst.
  unfold is_word in Hw. apply andb_true_iff in Hw. destruct Hw as [_ Ha].
  destruct ws as [|w' ws].
  - cbn [join_words]. now rewrite count_spaces_word.
  - change (join_words (w :: w' :: ws))
      with (w +:+ String " " (join_words (w' :: ws))).
    rewrite count_spaces_app, count_spaces_word by assumption.
    cbn [count_spaces]. rewrite (IH Hws).
    change (Ascii.eqb " " " ") with true. cbn [List.length]. lia.
Qed.

Lemma count_string_word_tokens (i : pyval) (ws : bool) (parts : list string) :
  count_string_tokens (word_tokens i ws parts) = List.length parts.
Proof.
  unfold count_string_tokens. revert ws.
  induction parts as [|p parts IH]; intros ws; [reflexivity|].
  cbn [word_tokens]. rewrite List.filter_app, length_app.
  cbn [List.filter is_string_token List.length]. rewrite IH.
  now destruct ws.
Qed.

Lemma count_whitespace_word_tokens (i : pyval) (parts : list string) :
  count_whitespace_tokens (word_tokens i false parts)
  = (List.length parts - 1)%nat /\
  count_whitespace_tokens (word_tokens i true parts) = List.length parts.
Proof.
  unfold count_whitespace_tokens.
  induction parts as [|p parts [IHf IHt]]; [split; reflexivity|].
  cbn [word_tokens]. rewrite !List.filter_app, !length_app.
  cbn [List.filter is_whitespace_token List.length].
  rewrite IHt. split; lia.
Qed.

Section Reassembly.

Context {Host : Type}.
Variable h : Host.
Variable ns : gmap string (value Host).

Lemma expand_variable (p i : pyval) (name : string) :
  expand h ns (VariableToken p i name) = Ok (lookup_text h ns name).
Proof. unfold expand, lookup_text. now destruct (ns !! name). Qed.

(** In a quoted token every subtoken gives exactly one token. *)
Lemma reassemble_all_quoted (q : ascii) (subts : list Token) :
  Forall (fun t => is_subtoken t = true) subts ->
  reassemble_all h ns (Some q) subts = Ok (map (quoted_image h ns q) subts).
Proof.
  induction subts as [|t subts IH]; intros H; [reflexivity|].
  inversion H as [|? ? Ht Hs]; subst.
  cbn [reassemble_all map]. rewrite (IH Hs).
  destruct t; try discriminate; reflexivity || idtac.
  unfold reassemble. cbn [is_string_token].
  now rewrite expand_variable.
Qed.

(** In an unquoted token a reference gives the words of its
    expansion. *)
Lemma reassemble_all_unquoted (subts : list Token) :
  Forall (fun t => is_subtoken t = true) subts ->
  reassemble_all h ns None subts
  = Ok (concat (map (unquoted_image h ns) subts)).
Proof.
  induction subts as [|t subts IH]; intros H; [reflexivity|].
  inversion H as [|? ? Ht Hs]; subst.
  cbn [reassemble_all map concat]. rewrite (IH Hs).
  destruct t; try discriminate; reflexivity || idtac.
  unfold reassemble. cbn [is_string_token].
  now rewrite expand_variable.
Qed.

Lemma on_tokenize_one (prefix : ascii) (i : pyval) (text : string)
    (q : option ascii) :
  contains prefix text = true ->
  on_tokenize prefix h ns [StringToken i text q] =
  match get_subtokens i text q prefix with
  | Raise e => Raise e
  | Ok subts => reassemble_all h ns q subts
  end.
Proof.
  intros Hc. cbn [on_tokenize]. rewrite Hc.
  destruct (get_subtokens i text q prefix) as [subts|]; [|reflexivity].
  destruct (reassemble_all h ns q subts); [|reflexivity].
  now rewrite app_nil_r.
Qed.

End Reassembly.

End VariablesFacts.

(* ===================================================================== *)
(** ** The subtokens of particular texts                                  *)
(* ===================================================================== *)

Module ScanCases.

Import Subtokens SubtokensFacts.

Lemma eqb_refl_true (c : ascii) : Ascii.eqb c c = true.
Proof. apply Ascii.eqb_refl. Qed.

(** A single reference: one variable token at the offset of the
    token. *)
Lemma get_subtokens_reference (prefix : ascii) (i : Z) (name : string)
    (q : option ascii) :
  is_name name = true ->
  get_subtokens (PyInt i) (String prefix name) q prefix =
  Ok [VariableToken (PyStr (String prefix EmptyString)) (PyInt i) name].
Proof.
  intros Hn. unfold get_subtokens, start. cbn [loop].
  unfold step at 1, body. cbn [escape var index subt].
  rewrite eqb_refl_true. cbn [subt_true subt_yield incr index escape subt var].
  rewrite loop_name by assumption.
  reflexivity.
Qed.

(** Two adjacent references: two variable tokens; the second one is
    built by [VariableToken(index, c)]. *)
Lemma get_subtokens_adjacent (prefix : ascii) (i : Z) (n1 n2 : string)
    (q : option ascii) :
  contains prefix VarChars = false ->
  is_name n1 = true -> is_name n2 = true ->
  get_subtokens (PyInt i) (String prefix n1 +:+ String prefix n2) q prefix =
  Ok [VariableToken (PyStr (String prefix EmptyString)) (PyInt i) n1;
      VariableToken (PyInt (i + 1 + Z.of_nat (String.length n1)))
                    (PyStr (String prefix EmptyString)) n2].
Proof.
  intros Hp H1 H2. unfold get_subtokens, start.
  rewrite str_app_cons. cbn [loop].
  unfold step at 1, body. cbn [escape var index subt].
  rewrite eqb_refl_true. cbn [subt_true subt_yield incr index escape subt var].
  rewrite loop_app, loop_name by assumption.
  cbn [loop]. unfold step at 1, body. cbn [escape var index subt].
  unfold add_char. rewrite Hp, eqb_refl_true.
  cbn [incr index escape subt var].
  rewrite loop_name by assumption.
  reflexivity.
Qed.

(** A backslash, the prefix, then literal text: one string token that
    starts with the prefix; no variable token. *)
Lemma get_subtokens_escaped (prefix : ascii) (i : Z) (lit : string)
    (q : option ascii) :
  prefix <> backslash ->
  is_literal prefix lit = true ->
  get_subtokens (PyInt i) (String backslash (String prefix lit)) q prefix =
  Ok [StringToken (PyInt i) (String prefix lit) q].
Proof.
  intros Hp Hl. unfold get_subtokens, start. cbn [loop].
  assert (Hbp : Ascii.eqb backslash prefix = false).
  { apply Ascii.eqb_neq. congruence. }
  unfold step at 1, body. cbn [escape var index subt].
  rewrite Hbp, eqb_refl_true. cbn [incr index escape subt var].
  unfold step at 1, body. cbn [escape var index subt].
  rewrite eqb_refl_true. cbn [subt_append incr index escape subt var].
  rewrite loop_literal by assumption.
  reflexivity.
Qed.

(** A backslash followed by any character, read in a good state with
    no backslash pending: a variable that was open is yielded and
    closed, no variable is opened, and the string subtoken receives
    the character alone when it is the prefix, the backslash and the
    character otherwise. *)
Lemma backslash_then_char (prefix : ascii) (quote : option ascii)
    (st : gen) (c : ascii) :
  prefix <> backslash ->
  good st -> escape st = false ->
  exists st' i t,
    loop prefix quote st (String backslash (String c EmptyString)) =
      Ok (st', match var st with Some v => [to_token v] | None => [] end) /\
    escape st' = false /\ var st' = None /\
    subt st' =
      SubtString i
        (t +:+ (if Ascii.eqb c prefix then String c EmptyString
                else String backslash (String c EmptyString)))
        (match var st, subt st with
         | None, SubtString _ _ q => q
         | _, _ => quote
         end) /\
    t = match var st, subt st with
        | None, SubtString _ t0 _ => t0
        | _, _ => EmptyString
        end.
Proof.
  intros Hp [Hi _] He.
  assert (Hbp : Ascii.eqb backslash prefix = false).
  { apply Ascii.eqb_neq. congruence. }
  assert (Hbv : contains backslash VarChars = false) by reflexivity.
  destruct st as [e ix sb v]. cbn [escape index subt var] in *. subst e.
  destruct ix as [k|]; [|discriminate].
  cbn [loop]. unfold step at 1, body. cbn [escape var index subt].
  destruct v as [v|].
  - unfold add_char. rewrite Hbv, Hbp, eqb_refl_true.
    cbn [incr index escape subt var].
    unfold step at 1, body. cbn [escape var index subt].
    destruct (Ascii.eqb c prefix);
      cbn [subt_append incr index escape subt var];
      eexists _, (PyInt k), EmptyString; repeat split.
  - rewrite Hbp, eqb_refl_true.
    destruct sb as [| |i0 t0 q0]; cbn [incr index escape subt var];
      unfold step at 1, body; cbn [escape var index subt];
      destruct (Ascii.eqb c prefix);
      cbn [subt_append incr index escape subt var].
    1-4: eexists _, (PyInt k), EmptyString; repeat split.
    all: eexists _, i0, t0; repeat split; cbn [escape var subt];
      rewrite ?str_app_nil_r, ?str_app_assoc; reflexivity.
Qed.

End ScanCases.

(* ===================================================================== *)
(** ** The escape decoder at the ends of a text                           *)
(* ===================================================================== *)

Module DecodeEnds.

Import HexCode HexCodeFacts.

(** A text that ends inside an escape with one digit read keeps the
    escape as it stands. *)
Lemma decode_partial_escape (t : string) (c : ascii) :
  contains backslash t = false ->
  decode (t +:+ esc_x (String c EmptyString))
  = Ok (t +:+ esc_x (String c EmptyString)).
Proof.
  intros H. unfold decode. rewrite scan_text_app.
  change initial with (normal EmptyString).
  rewrite scan_plain by assumption. reflexivity.
Qed.

(** A text that ends with a lone backslash keeps it. *)
Lemma decode_trailing_backslash (t : string) :
  contains backslash t = false ->
  decode (t +:+ String backslash EmptyString)
  = Ok (t +:+ String backslash EmptyString).
Proof.
  intros H. unfold decode. rewrite scan_text_app.
  change initial with (normal EmptyString).
  rewrite scan_plain by assumption. reflexivity.
Qed.

(** A text that ends right after the [x] of an escape loses the
    escape: the collected digits are the empty string, which is
    false in [if hexcode:]. *)
Lemma decode_bare_escape (t : string) :
  contains backslash t = false ->
  decode (t +:+ esc_x EmptyString) = Ok t.
Proof.
  intros H. unfold decode. rewrite scan_text_app.
  change initial with (normal EmptyString).
  rewrite scan_plain by assumption. reflexivity.
Qed.

End DecodeEnds.

(* ===================================================================== *)
(** ** The claims                                                         *)
(* ===================================================================== *)

(** C1. Escapes [\xHH] in a string token: two hexadecimal digits are
    replaced by the character of that code point; an invalid pair is
    emitted as it stands and is meant to appear once, the rest of the
    text being decoded as usual. The code does not leave the collecting
    state after an invalid pair: on the text [\xZZab] the escape comes
    out twice. *)
Theorem C1_invalid_escape_comes_out_twice :
  HexCode.on_tokenize [StringToken (PyInt 0) "\xZZab" None]
  = ([StringToken (PyInt 0) "\xZZ\xZZab" None], None).
Proof. vm_compute. reflexivity. Qed.

(** C6. A text that ends while digits are being collected is meant to
    keep [\x] and the digits read so far, also when none was read. The
    code drops the escape when no digit was read: on the text [ab\x]
    the result is [ab]. *)
Theorem C6_escape_without_digit_is_dropped :
  HexCode.on_tokenize [StringToken (PyInt 0) "ab\x" None]
  = ([StringToken (PyInt 0) "ab" None], None).
Proof. vm_compute. reflexivity. Qed.

(** C9. on_tokenize is meant to return the list it was given for every
    input. On a string token holding the escape [\x-1] it raises
    TypeError instead, the list being as it was. *)
Theorem C9_negative_escape_raises :
  HexCode.on_tokenize
    [WhitespaceToken (PyInt 0); StringToken (PyInt 1) "\x-1" None]
  = ([WhitespaceToken (PyInt 0); StringToken (PyInt 1) "\x-1" None],
     Some (TypeError "can only concatenate str to str")).
Proof. vm_compute. reflexivity. Qed.

(** C5. Every token produced by variable substitution is meant to carry
    an integer offset. For the second of two adjacent references the
    offset is the prefix character: on [$a$b] the second token produced
    has the string [$] as its index. *)
Theorem C5_adjacent_reference_has_string_index :
  Variables.on_tokenize "$" tt example_ns [StringToken (PyInt 0) "$a$b" None]
  = Ok [StringToken (PyInt 0) "x" None; StringToken (PyStr "$") "y" None].
Proof. vm_compute. reflexivity. Qed.

(** C8. [stop()] closes the streams of the invocation only when the
    thread is alive; on a thread that has finished or was never started
    it changes nothing and calls nothing; whatever [close_streams]
    raises, nothing leaves [stop()]. *)
Theorem C8_stop_only_live_and_swallows {Invocation : Type}
    (close_streams : Invocation -> Invocation * option exn)
    (t : Pipes.InvocationThread Invocation) :
  Pipes.raised (Pipes.stop close_streams t) = None /\
  match Pipes.life_of t with
  | Pipes.Running =>
      Pipes.closed (Pipes.stop close_streams t) = [Pipes.invoke t] /\
      Pipes.thread_after (Pipes.stop close_streams t) =
        Pipes.MkThread (Pipes.life_of t) (fst (close_streams (Pipes.invoke t)))
                       (Pipes.exc_info t) (Pipes.rc t)
  | Pipes.NotStarted | Pipes.Finished =>
      Pipes.closed (Pipes.stop close_streams t) = [] /\
      Pipes.thread_after (Pipes.stop close_streams t) = t
  end.
Proof.
  unfold Pipes.stop, Pipes.is_alive.
  destruct (Pipes.life_of t) eqn:E.
  - split; [reflexivity | split; reflexivity].
  - destruct (close_streams (Pipes.invoke t)) as [inv' e].
    split; [reflexivity | split; reflexivity].
  - split; [reflexivity | split; reflexivity].
Qed.

(** C10. Installing an override from a thread, or removing the override
    of a thread, changes the entry of that thread only: the canonical
    tuple is unchanged, and so are the entry and the effective tuple of
    every other thread; removing an override that is not installed
    changes nothing. *)
Theorem C10_proxy_changes_one_entry {Stream : Type}
    (s : Pipes.ThreadLocalStream Stream) (cur other : Z)
    (target : Stream) (width : option Z) (isatty : option bool)
    (ident : option Z) :
  Pipes._target (Pipes._proxy s cur target width isatty) = Pipes._target s /\
  Pipes._target (Pipes._unproxy s cur ident) = Pipes._target s /\
  (other <> cur ->
     Pipes._proxies (Pipes._proxy s cur target width isatty) !! other
       = Pipes._proxies s !! other /\
     Pipes._get_target (Pipes._proxy s cur target width isatty) other
       = Pipes._get_target s other) /\
  (other <> Pipes.ident_or ident cur ->
     Pipes._proxies (Pipes._unproxy s cur ident) !! other
       = Pipes._proxies s !! other /\
     Pipes._get_target (Pipes._unproxy s cur ident) other
       = Pipes._get_target s other) /\
  (Pipes._proxies s !! Pipes.ident_or ident cur = None ->
     Pipes._unproxy s cur ident = s).
Proof.
  repeat split.
  - unfold Pipes._unproxy.
    now destruct (Pipes._proxies s !! Pipes.ident_or ident cur).
  - cbn. now rewrite lookup_insert_ne.
  - unfold Pipes._get_target. cbn. now rewrite lookup_insert_ne.
  - unfold Pipes._unproxy.
    destruct (Pipes._proxies s !! Pipes.ident_or ident cur); [|reflexivity].
    cbn. now rewrite lookup_delete_ne.
  - unfold Pipes._get_target, Pipes._unproxy.
    destruct (Pipes._proxies s !! Pipes.ident_or ident cur); [|reflexivity].
    cbn. now rewrite lookup_delete_ne.
  - intros H. unfold Pipes._unproxy. now rewrite H.
Qed.

(** An instance of C10: thread 1 has an override; thread 2 installs its
    own and removes it again, and removes it once more. *)
Lemma C10_proxy_changes_one_entry_witness :
  let s := Pipes._proxy (Pipes.new_stream 10%nat None None) 1 11%nat (Some 80) None in
  Pipes._get_target (Pipes._proxy s 2 12%nat None (Some true)) 1
    = (11%nat, Some 80, None) /\
  Pipes._get_target (Pipes._unproxy s 2 (Some 1)) 3 = (10%nat, None, None) /\
  Pipes._unproxy s 2 None = s.
Proof.
  intros s.
  destruct (C10_proxy_changes_one_entry s 2 1 12%nat None (Some true) None)
    as (_ & _ & Hp & _ & Hn).
  destruct (C10_proxy_changes_one_entry s 2 3 12%nat None (Some true) (Some 1))
    as (_ & _ & _ & Hu & _).
  split; [|split].
  - destruct Hp as [_ Hp]; [lia|]. rewrite Hp. reflexivity.
  - destruct Hu as [_ Hu]; [cbn; lia|]. rewrite Hu. reflexivity.
  - apply Hn. reflexivity.
Defined.

(** C7. A token text made of a backslash, the prefix and literal text
    (as in [\$name]) yields that text without the backslash as one
    string token, and no reference is resolved, whatever the namespace
    binds. More generally, wherever a backslash is read with no
    backslash pending, the character after it opens no variable: the
    prefix is added alone to the string subtoken, any other character is
    added together with the backslash. *)
Theorem C7_backslash_suppresses_prefix {Host : Type} (prefix : ascii)
    (h : Host) (ns : gmap string (Variables.value Host))
    (i : Z) (name : string) (q : option ascii) :
  prefix <> backslash ->
  is_literal prefix name = true ->
  Variables.on_tokenize prefix h ns
    [StringToken (PyInt i) (String backslash (String prefix name)) q]
  = Ok [StringToken (PyInt i) (String prefix name) q]
  /\
  forall (st : Subtokens.gen) (c : ascii),
    good st -> Subtokens.escape st = false ->
    exists st' i' t,
      Subtokens.loop prefix q st (String backslash (String c EmptyString)) =
        Ok (st', match Subtokens.var st with
                 | Some v => [Subtokens.to_token v]
                 | None => []
                 end) /\
      Subtokens.escape st' = false /\ Subtokens.var st' = None /\
      Subtokens.subt st' =
        Subtokens.SubtString i'
          (t +:+ (if Ascii.eqb c prefix then String c EmptyString
                  else String backslash (String c EmptyString)))
          (match Subtokens.var st, Subtokens.subt st with
           | None, Subtokens.SubtString _ _ q0 => q0
           | _, _ => q
           end) /\
      t = match Subtokens.var st, Subtokens.subt st with
          | None, Subtokens.SubtString _ t0 _ => t0
          | _, _ => EmptyString
          end.
Proof.
  intros Hp Hl. split.
  - rewrite VariablesFacts.on_tokenize_one.
    + now rewrite ScanCases.get_subtokens_escaped.
    + cbn [contains].
      destruct (Ascii.eqb prefix backslash); [reflexivity|].
      now rewrite Ascii.eqb_refl.
  - intros st c Hg He. now apply ScanCases.backslash_then_char.
Qed.

(** An instance of C7: [\$name] with [name] bound, and the backslash
    before [n] read while the variable [a] is open. *)
Lemma C7_backslash_suppresses_prefix_witness :
  Variables.on_tokenize "$" tt example_ns
    [StringToken (PyInt 3) "\$name" None]
  = Ok [StringToken (PyInt 3) "$name" None]
  /\
  exists st' i' t,
    Subtokens.loop "$" None
      (Subtokens.Gen false (PyInt 1) Subtokens.SubtEmptyStr
         (Some (Subtokens.VarTok (PyStr "$") (PyInt 0) "a"))) "\n"
    = Ok (st', [VariableToken (PyStr "$") (PyInt 0) "a"]) /\
    Subtokens.escape st' = false /\ Subtokens.var st' = None /\
    Subtokens.subt st' = Subtokens.SubtString i' (t +:+ "\n") None /\
    t = EmptyString.
Proof.
  assert (Hp : "$"%char <> backslash) by discriminate.
  destruct (C7_backslash_suppresses_prefix "$" tt example_ns 3 "name" None
              Hp eq_refl) as [H1 H2].
  split; [exact H1|].
  apply (H2 (Subtokens.Gen false (PyInt 1) Subtokens.SubtEmptyStr
               (Some (Subtokens.VarTok (PyStr "$") (PyInt 0) "a")))
            "n"%char).
  - split; [reflexivity | discriminate].
  - reflexivity.
Defined.

(** C3, as the claim states it, fails: the value [a  b] has two embedded
    spaces, and the unquoted reference [$v] to it gives two string
    tokens, not three. *)
Lemma C3_two_spaces_two_tokens :
  lookup_text tt example_ns "v" = "a  b" /\
  count_spaces "a  b" = 2%nat /\
  Variables.on_tokenize "$" tt example_ns [StringToken (PyInt 0) "$v" None]
  = Ok [StringToken (PyInt 0) "a" None; WhitespaceToken (PyInt 0);
        StringToken (PyInt 0) "b" None] /\
  count_string_tokens
    [StringToken (PyInt 0) "a" None; WhitespaceToken (PyInt 0);
     StringToken (PyInt 0) "b" None] <> (2 + 1)%nat.
Proof. vm_compute. repeat split; discriminate. Qed.

(** C3, amended. In a quoted token every variable reference becomes
    exactly one quoted string token holding the expansion as it is,
    white space included. In an unquoted token a reference becomes the
    words of its expansion: a value made of N+1 words separated by N
    single spaces gives N+1 string tokens with N whitespace tokens
    between them; in general there is one string token per maximal run
    of characters that are not white space. *)
Theorem C3_quoted_one_token_unquoted_words {Host : Type} (prefix : ascii)
    (h : Host) (ns : gmap string (Variables.value Host))
    (i : Z) (text : string) (q : ascii) :
  contains prefix text = true ->
  (exists subts,
     Subtokens.get_subtokens (PyInt i) text (Some q) prefix = Ok subts /\
     Variables.on_tokenize prefix h ns [StringToken (PyInt i) text (Some q)]
     = Ok (map (quoted_image h ns q) subts)) /\
  (exists subts,
     Subtokens.get_subtokens (PyInt i) text None prefix = Ok subts /\
     Variables.on_tokenize prefix h ns [StringToken (PyInt i) text None]
     = Ok (concat (map (unquoted_image h ns) subts))) /\
  (forall (p idx : pyval) (name : string),
     count_string_tokens (unquoted_image h ns (VariableToken p idx name))
     = List.length (split (lookup_text h ns name))) /\
  (forall (p idx : pyval) (name : string) (words : list string),
     Forall (fun w => is_word w = true) words ->
     lookup_text h ns name = join_words words ->
     count_spaces (lookup_text h ns name) = (List.length words - 1)%nat /\
     unquoted_image h ns (VariableToken p idx name)
     = Variables.word_tokens idx false words /\
     count_string_tokens (unquoted_image h ns (VariableToken p idx name))
     = List.length words /\
     count_whitespace_tokens (unquoted_image h ns (VariableToken p idx name))
     = (List.length words - 1)%nat).
Proof.
  intros Hc. split; [|split; [|split]].
  - destruct (SubtokensFacts.get_subtokens_total i text (Some q) prefix)
      as (subts & Hs & Hall).
    exists subts. split; [assumption|].
    rewrite VariablesFacts.on_tokenize_one by assumption.
    rewrite Hs. now apply VariablesFacts.reassemble_all_quoted.
  - destruct (SubtokensFacts.get_subtokens_total i text None prefix)
      as (subts & Hs & Hall).
    exists subts. split; [assumption|].
    rewrite VariablesFacts.on_tokenize_one by assumption.
    rewrite Hs. now apply VariablesFacts.reassemble_all_unquoted.
  - intros p idx name. cbn [unquoted_image].
    apply VariablesFacts.count_string_word_tokens.
  - intros p idx name words Hw Hv. cbn [unquoted_image]. rewrite Hv.
    rewrite VariablesFacts.split_join_words by assumption.
    split; [now apply VariablesFacts.count_spaces_join|].
    split; [reflexivity|].
    split; [apply VariablesFacts.count_string_word_tokens|].
    apply VariablesFacts.count_whitespace_word_tokens.
Qed.

(** An instance of C3: [greeting] holds three words separated by single
    spaces. *)
Lemma C3_quoted_one_token_unquoted_words_witness :
  Variables.on_tokenize "$" tt example_ns
    [StringToken (PyInt 0) "$greeting" (Some "'"%char)]
  = Ok [StringToken (PyInt 0) "hello big world" (Some "'"%char)] /\
  unquoted_image tt example_ns (VariableToken (PyStr "$") (PyInt 0) "greeting")
  = [StringToken (PyInt 0) "hello" None; WhitespaceToken (PyInt 0);
     StringToken (PyInt 0) "big" None; WhitespaceToken (PyInt 0);
     StringToken (PyInt 0) "world" None] /\
  count_spaces (lookup_text tt example_ns "greeting") = 2%nat /\
  count_string_tokens
    (unquoted_image tt example_ns
       (VariableToken (PyStr "$") (PyInt 0) "greeting")) = 3%nat.
Proof.
  destruct (C3_quoted_one_token_unquoted_words "$" tt example_ns 0
              "$greeting" "'"%char eq_refl)
    as ((subts & Hs & Hq) & _ & _ & Hw).
  destruct (Hw (PyStr "$") (PyInt 0) "greeting" ["hello"; "big"; "world"])
    as (Hsp & Hu & Hn & _).
  { repeat constructor. }
  { reflexivity. }
  split; [|split; [|split]].
  - rewrite Hq. vm_compute in Hs. injection Hs as <-. reflexivity.
  - exact Hu.
  - exact Hsp.
  - exact Hn.
Defined.

(** C4, as the claim states it, fails: with [a] and [b] bound to one
    word each, [$a$b] gives two string tokens, not one concatenated
    token. *)
Lemma C4_two_references_two_tokens :
  exists t1 t2,
    Variables.on_tokenize "$" tt example_ns
      [StringToken (PyInt 0) "$a$b" None] = Ok [t1; t2] /\
    string_text t1 = Some "x" /\ string_text t2 = Some "y".
Proof. eexists _, _. vm_compute. repeat split. Qed.

(** C4, amended. For two adjacent references with nothing between them
    on_tokenize inserts no separator: the output is the words of the
    first expansion followed at once by the words of the second. The
    expansions are not merged into one token: the output is a single
    string token when the first reference expands to nothing and the
    second to one word, and two consecutive string tokens when both
    expand to one word. When a whitespace token stands between the two
    references it stays between their words. *)
Theorem C4_adjacent_references_no_separator {Host : Type} (prefix : ascii)
    (h : Host) (ns : gmap string (Variables.value Host))
    (i k : Z) (j : pyval) (n1 n2 : string) :
  contains prefix Subtokens.VarChars = false ->
  is_name n1 = true -> is_name n2 = true ->
  (exists out,
     Variables.on_tokenize prefix h ns
       [StringToken (PyInt i) (String prefix n1 +:+ String prefix n2) None]
     = Ok out /\
     map erase_index out
     = Variables.word_tokens (PyInt 0) false (split (lookup_text h ns n1))
       ++ Variables.word_tokens (PyInt 0) false (split (lookup_text h ns n2)) /\
     (lookup_text h ns n1 = EmptyString ->
      is_word (lookup_text h ns n2) = true ->
      map erase_index out = [StringToken (PyInt 0) (lookup_text h ns n2) None]) /\
     (is_word (lookup_text h ns n1) = true ->
      is_word (lookup_text h ns n2) = true ->
      map erase_index out
      = [StringToken (PyInt 0) (lookup_text h ns n1) None;
         StringToken (PyInt 0) (lookup_text h ns n2) None])) /\
  Variables.on_tokenize prefix h ns
    [StringToken (PyInt i) (String prefix n1) None; WhitespaceToken j;
     StringToken (PyInt k) (String prefix n2) None]
  = Ok (Variables.word_tokens (PyInt i) false (split (lookup_text h ns n1))
        ++ WhitespaceToken j
        :: Variables.word_tokens (PyInt k) false (split (lookup_text h ns n2))).
Proof.
  intros Hp H1 H2.
  assert (Hword : forall w, is_word w = true -> split w = [w]).
  { intros w Hw. apply (VariablesFacts.split_join_words [w]).
    now constructor. }
  assert (Herase : forall idx b ws,
            map erase_index (Variables.word_tokens idx b ws)
            = Variables.word_tokens (PyInt 0) b ws).
  { intros idx b ws. revert b. induction ws as [|w ws IH]; intros b;
      [reflexivity|].
    cbn [Variables.word_tokens]. rewrite map_app. cbn [map erase_index].
    rewrite IH. now destruct b. }
  split.
  - eexists. split; [|split; [|split]].
    + rewrite VariablesFacts.on_tokenize_one.
      * rewrite ScanCases.get_subtokens_adjacent by assumption.
        cbn [Variables.reassemble_all Variables.reassemble is_string_token
             token_index].
        rewrite !VariablesFacts.expand_variable. rewrite app_nil_r.
        reflexivity.
      * rewrite str_app_cons. cbn [contains]. now rewrite Ascii.eqb_refl.
    + now rewrite map_app, !Herase.
    + intros He Hw. rewrite map_app, !Herase, He, (Hword _ Hw).
      reflexivity.
    + intros Hw1 Hw2. rewrite map_app, !Herase, (Hword _ Hw1), (Hword _ Hw2).
      reflexivity.
  - cbn [Variables.on_tokenize contains]. rewrite !Ascii.eqb_refl.
    rewrite !ScanCases.get_subtokens_reference by assumption.
    cbn [Variables.reassemble_all Variables.reassemble is_string_token
         token_index].
    rewrite !VariablesFacts.expand_variable. rewrite !app_nil_r.
    reflexivity.
Qed.

(** An instance of C4: the example of the specification, and [$a$b]
    with a whitespace token between the references. *)
Lemma C4_adjacent_references_no_separator_witness :
  (exists out,
     Variables.on_tokenize "$" tt example_ns
       [StringToken (PyInt 0) "$undefined$name" None] = Ok out /\
     map erase_index out = [StringToken (PyInt 0) "World" None]) /\
  Variables.on_tokenize "$" tt example_ns
    [StringToken (PyInt 0) "$undefined" None; WhitespaceToken (PyInt 10);
     StringToken (PyInt 11) "$name" None]
  = Ok [WhitespaceToken (PyInt 10); StringToken (PyInt 11) "World" None].
Proof.
  destruct (C4_adjacent_references_no_separator "$" tt example_ns 0 11
              (PyInt 10) "undefined" "name" eq_refl eq_refl eq_refl)
    as ((out & Ho & _ & He & _) & Hv).
  split.
  - exists out. split; [exact Ho|]. apply He; reflexivity.
  - exact Hv.
Defined.

(** C2. An assignment through the var command to a managed variable
    without a setter is meant to be reported on the error channel, the
    command returning normally. The stored state is indeed unchanged,
    but the handler reads [e.message], which exceptions do not have:
    nothing is reported and AttributeError leaves [run]. *)
Theorem C2_readonly_assignment_raises {Host : Type}
    (parse : list string -> list string * Variables.Expression)
    (sh : Variables.Shell Host) (name v : string)
    (m : Variables.ManagedVariable Host) :
  name <> "-h" -> name <> "-l" -> name <> "-d" ->
  parse [name; "="; v]
    = ([], Variables.MkExpression (Some name) (Some "=") (Some v)) ->
  Variables.vars sh !! name = Some (Variables.ManagedVar m) ->
  Variables.setter Host m = None ->
  Variables.run parse sh [name; "="; v]
  = (sh, Raise (AttributeError
                  "'ValueError' object has no attribute 'message'")).
Proof.
  intros Hh Hl Hd Hparse Hvar Hset.
  unfold Variables.run.
  apply String.eqb_neq in Hh, Hl, Hd. rewrite Hh, Hl, Hd, Hparse.
  cbn [Variables.operand Variables.operator Variables.exp_value default].
  change (String.eqb "=" "=") with true. cbn [negb].
  unfold Variables.assign. rewrite Hvar.
  unfold Variables.managed_set. rewrite Hset.
  destruct sh as [ho va ca]. reflexivity.
Qed.

(** An instance of C2: [var prompt = x] in the example shell. *)
Lemma C2_readonly_assignment_raises_witness :
  Variables.run parse_args example_shell ["prompt"; "="; "x"]
  = (example_shell,
     Raise (AttributeError "'ValueError' object has no attribute 'message'")).
Proof.
  apply (C2_readonly_assignment_raises parse_args example_shell "prompt" "x"
           (Variables.Managed (fun _ => "> ") None)).
  - discriminate.
  - discriminate.
  - discriminate.
  - reflexivity.
  - reflexivity.
  - reflexivity.
Defined.

(* ===================================================================== *)
(** ** Further properties of the escape decoder                           *)
(* ===================================================================== *)

Module HexCodeMore.

Import HexCode HexCodeFacts.

(** The state with [t] put in front of the text emitted so far. *)
Lemma scan_char_prepend (t : string) (st : scan) (c : ascii) :
  scan_char {| escape := escape st; hexcode := hexcode st;
               text := t +:+ text st |} c =
  match scan_char st c with
  | Ok st' => Ok {| escape := escape st'; hexcode := hexcode st';
                    text := t +:+ text st' |}
  | Raise e => Raise e
  end.
Proof.
  unfold scan_char. cbn [escape hexcode text].
  destruct (escape st).
  - destruct (Ascii.eqb c "x"); cbn [escape hexcode text];
      rewrite ?str_app_assoc; reflexivity.
  - destruct (hexcode st) as [h|].
    + destruct (Nat.eqb (String.length (h +:+ String c EmptyString)) 2).
      * destruct (int_base16 (h +:+ String c EmptyString)) as [n|[]];
          try reflexivity.
        -- destruct (chr n) as [ch|[]]; cbn [escape hexcode text];
             rewrite ?str_app_assoc; reflexivity.
        -- cbn [escape hexcode text]. now rewrite str_app_assoc.
      * reflexivity.
    + destruct (Ascii.eqb c backslash); cbn [escape hexcode text];
        rewrite ?str_app_assoc; reflexivity.
Qed.

Lemma scan_text_prepend (t : string) (s : string) : forall st : scan,
  scan_text {| escape := escape st; hexcode := hexcode st;
               text := t +:+ text st |} s =
  match scan_text st s with
  | Ok st' => Ok {| escape := escape st'; hexcode := hexcode st';
                    text := t +:+ text st' |}
  | Raise e => Raise e
  end.
Proof.
  induction s as [|c s IH]; intros st.
  - reflexivity.
  - cbn [scan_text]. rewrite scan_char_prepend.
    destruct (scan_char st c) as [st1|e]; [|reflexivity].
    apply IH.
Qed.

Lemma finish_prepend (t : string) (st : scan) :
  finish {| escape := escape st; hexcode := hexcode st;
            text := t +:+ text st |} = t +:+ finish st.
Proof.
  unfold finish. cbn [escape hexcode text].
  destruct (hexcode st) as [h|]; [destruct (truthy h)|];
    destruct (escape st); rewrite ?str_app_assoc; reflexivity.
Qed.

(** Decoding from the normal state with [t] already emitted is decoding
    from the start, with [t] in front. *)
Lemma decode_from_normal (t s : string) :
  decode_from (normal t) s =
  match decode s with
  | Ok r => Ok (t +:+ r)
  | Raise e => Raise e
  end.
Proof.
  unfold decode_from, decode.
  pose proof (scan_text_prepend t s initial) as H.
  cbn [escape hexcode text initial] in H.
  rewrite str_app_nil_r in H. fold (normal t) in H. rewrite H.
  destruct (scan_text initial s) as [st|e]; [|reflexivity].
  now rewrite finish_prepend.
Qed.

Lemma decode_app_plain (t s : string) :
  contains backslash t = false ->
  decode (t +:+ s) = decode_from (normal t) s.
Proof.
  intros H. unfold decode, decode_from. rewrite scan_text_app.
  change initial with (normal EmptyString).
  now rewrite scan_plain.
Qed.

End HexCodeMore.

(** X1. Decoding goes on after a valid escape: for text [t] without a
    backslash and two hexadecimal digits, the text [t\xHHr] decodes to
    [t], the character with that code, and the decoding of [r]; it
    raises exactly when the decoding of [r] does. *)
Theorem X1_valid_escape_then_rest (t r : string) (c1 c2 : ascii) (d1 d2 : Z) :
  contains backslash t = false ->
  hex_digit c1 = Some d1 -> hex_digit c2 = Some d2 ->
  HexCode.decode (t +:+ esc_x (String c1 (String c2 r))) =
  match HexCode.decode r with
  | Ok s =>
      Ok (t +:+ String (ascii_of_nat (Z.to_nat (16 * d1 + d2))) s)
  | Raise e => Raise e
  end.
Proof.
  intros Ht H1 H2.
  rewrite HexCodeMore.decode_app_plain by assumption.
  unfold decode_from.
  rewrite (HexCodeFacts.scan_valid_escape _ _ _ _ _ _ H1 H2).
  fold (decode_from
          (normal (t +:+ String (ascii_of_nat (Z.to_nat (16 * d1 + d2)))
                           EmptyString)) r).
  rewrite HexCodeMore.decode_from_normal.
  destruct (HexCode.decode r) as [s|e]; [|reflexivity].
  now rewrite str_app_assoc.
Qed.

(** An instance of X1. *)
Lemma X1_valid_escape_then_rest_witness :
  HexCode.decode "say \x41\x62c" = Ok "say Abc".
Proof.
  exact (X1_valid_escape_then_rest "say " "\x62c" "4" "1" 4 1
           eq_refl eq_refl eq_refl).
Defined.

Module HexCodeIdentity.

Import HexCode.

Lemma decode_from_no_hex (s : string) : forall (pending : bool) (t : string),
  no_hex_escape_from pending s = true ->
  decode_from {| escape := pending; hexcode := None; text := t |} s =
  Ok (t +:+ (if pending then String backslash EmptyString else EmptyString)
        +:+ s).
Proof.
  induction s as [|c s IH]; intros pending t H.
  - unfold decode_from, finish. cbn [scan_text escape hexcode text].
    destruct pending; now rewrite ?str_app_nil_r.
  - unfold decode_from. cbn [scan_text]. unfold scan_char.
    cbn [escape hexcode text]. cbn [no_hex_escape_from] in H.
    destruct pending.
    + apply andb_true_iff in H. destruct H as [Hx H].
      apply negb_true_iff in Hx. rewrite Hx.
      fold (decode_from
              {| escape := false; hexcode := None;
                 text := t +:+ String backslash (String c EmptyString) |} s).
      rewrite (IH false _ H).
      now rewrite !str_app_assoc.
    + destruct (Ascii.eqb c backslash) eqn:E.
      * apply Ascii.eqb_eq in E. subst c.
        fold (decode_from {| escape := true; hexcode := None; text := t |} s).
        now rewrite (IH true _ H).
      * fold (decode_from
                {| escape := false; hexcode := None;
                   text := t +:+ String c EmptyString |} s).
        rewrite (IH false _ H).
        now rewrite !str_app_assoc.
Qed.

Lemma scan_char_raises (st : scan) (c : ascii) (e : exn) :
  scan_char st c = Raise e -> exists m, e = TypeError m.
Proof.
  unfold scan_char.
  destruct (escape st); [destruct (Ascii.eqb c "x"); discriminate|].
  destruct (hexcode st) as [h|];
    [|destruct (Ascii.eqb c backslash); discriminate].
  destruct (Nat.eqb (String.length (h +:+ String c EmptyString)) 2);
    [|discriminate].
  destruct (int_base16 (h +:+ String c EmptyString)) as [n|e0] eqn:Ei.
  - unfold chr. destruct ((0 <=? n) && (n <? 256)); [discriminate|].
    intros H. inversion H. eauto.
  - destruct (int_base16_raises _ _ Ei) as [m ->]. discriminate.
Qed.

Lemma decode_raises (s : string) (e : exn) :
  decode s = Raise e -> exists m, e = TypeError m.
Proof.
  unfold decode. generalize initial. induction s as [|c s IH]; intros st.
  - discriminate.
  - cbn [scan_text]. destruct (scan_char st c) as [st1|e1] eqn:E.
    + apply IH.
    + intros H. inversion H. subst. eapply scan_char_raises, E.
Qed.

End HexCodeIdentity.

(** X2. Text in which no backslash is followed by [x] is decoded to
    itself: every other escape is kept as written, and so is a backslash
    that ends the text. *)
Theorem X2_decode_identity_without_hex_escape (s : string) :
  no_hex_escape s = true -> HexCode.decode s = Ok s.
Proof.
  intros H.
  pose proof (HexCodeIdentity.decode_from_no_hex s false EmptyString H) as E.
  exact E.
Qed.

(** An instance of X2. *)
Lemma X2_decode_identity_without_hex_escape_witness :
  HexCode.decode "a\nb\\x41\" = Ok "a\nb\\x41\".
Proof. apply X2_decode_identity_without_hex_escape. reflexivity. Defined.

(** X3. Whatever the tokens, and whether the call returns or raises,
    on_tokenize leaves as many tokens as it was given, in the same
    order; a token differs from the one given at most by the text of a
    string token, and a token that is not a string token or whose text
    has no backslash is the one given. *)
Theorem X3_hexcode_on_tokenize_frame (tokens : list Token) :
  List.length (fst (HexCode.on_tokenize tokens)) = List.length tokens /\
  Forall2 (fun t t' =>
             same_but_text t t' /\ (HexCode.skipped t = true -> t' = t))
          tokens (fst (HexCode.on_tokenize tokens)).
Proof.
  pose proof (HexCodeFacts.on_tokenize_frame tokens) as H.
  split; [|exact H].
  symmetry. eapply Forall2_length, H.
Qed.

(** X4. The only exception that leaves on_tokenize is TypeError: the
    ValueError of [int] and of [chr] never does. *)
Theorem X4_hexcode_raises_only_type_error (tokens : list Token) (e : exn) :
  snd (HexCode.on_tokenize tokens) = Some e -> exists m, e = TypeError m.
Proof.
  induction tokens as [|t tokens IH]; [discriminate|].
  cbn [HexCode.on_tokenize].
  destruct t as [i s q|i|i o|p i v];
    try (destruct (HexCode.on_tokenize tokens) as [rest' e']; exact IH).
  destruct (contains backslash s);
    [|destruct (HexCode.on_tokenize tokens) as [rest' e']; exact IH].
  destruct (HexCode.decode s) as [s'|e1] eqn:E.
  - destruct (HexCode.on_tokenize tokens) as [rest' e']. exact IH.
  - cbn [snd]. intros H. inversion H. subst.
    eapply HexCodeIdentity.decode_raises, E.
Qed.

(** An instance of X4. *)
Lemma X4_hexcode_raises_only_type_error_witness :
  exists m, TypeError "can only concatenate str to str" = TypeError m.
Proof.
  apply (X4_hexcode_raises_only_type_error
           [StringToken (PyInt 0) "\x-f" None]).
  reflexivity.
Defined.



(* ===================================================================== *)
(** ** Further properties of variable substitution                        *)
(* ===================================================================== *)

Module SubstitutionMore.

Import Subtokens SubtokensFacts Variables VariablesFacts.

Lemma render_all_app (prefix : ascii) (a b : list Token) :
  render_all prefix (a ++ b) = render_all prefix a +:+ render_all prefix b.
Proof.
  induction a as [|t a IH]; [reflexivity|].
  cbn [app render_all fold_right]. fold (render_all prefix (a ++ b)).
  fold (render_all prefix a). now rewrite IH, str_app_assoc.
Qed.

(** The states met while reading text without a backslash. *)
Definition tidy (st : gen) : Prop :=
  escape st = false /\ is_int (index st) = true /\
  (var st <> None -> subt_true (subt st) = false).

Lemma step_render (prefix : ascii) (quote : option ascii) (st : gen)
    (c : ascii) :
  tidy st -> Ascii.eqb c backslash = false ->
  exists st' ys,
    step prefix quote st c = Ok (st', ys) /\ tidy st' /\
    render_all prefix ys +:+ pending_text prefix st'
    = pending_text prefix st +:+ String c EmptyString.
Proof.
  intros (He & Hi & Hv) Hc.
  destruct st as [e ix sb v]. cbn [escape index subt var] in *. subst e.
  destruct ix as [k|]; [|discriminate].
  unfold step, body. cbn [escape index subt var]. rewrite Hc.
  destruct v as [v|].
  - assert (Hs : subt_true sb = false) by (apply Hv; discriminate).
    unfold add_char. destruct (contains c VarChars).
    + cbn [incr index escape subt var]. eexists _, _.
      split; [reflexivity|]. split.
      * repeat split; cbn [escape index subt var]; auto.
      * unfold pending_text. cbn [subt var vt_var render_all fold_right].
        destruct sb; try discriminate; now rewrite str_app_nil_l.
    + destruct (Ascii.eqb c prefix) eqn:Ep.
      * apply Ascii.eqb_eq in Ep. subst c.
        cbn [incr index escape subt var]. eexists _, _.
        split; [reflexivity|]. split.
        -- repeat split; cbn [escape index subt var]; auto.
        -- unfold pending_text.
           cbn [subt var vt_var render_all fold_right render to_token].
           destruct sb; try discriminate;
             now rewrite str_app_nil_r.
      * cbn [incr index escape subt var]. eexists _, _.
        split; [reflexivity|]. split.
        -- repeat split; cbn [escape index subt var]; auto.
           intros H. now contradiction H.
        -- unfold pending_text.
           cbn [subt var vt_var render_all fold_right render to_token].
           destruct sb; try discriminate; now rewrite str_app_nil_r.
  - destruct (Ascii.eqb c prefix) eqn:Ep.
    + apply Ascii.eqb_eq in Ep. subst c.
      cbn [incr index escape subt var]. eexists _, _.
      split; [reflexivity|]. split.
      * repeat split; cbn [escape index subt var]; auto.
        intros _. now destruct sb.
      * unfold pending_text. cbn [subt var vt_var].
        destruct sb as [| |i0 t0 q0];
          cbn [subt_true subt_yield render_all fold_right render];
          now rewrite ?str_app_nil_r, ?str_app_nil_l.
    + destruct sb as [| |i0 t0 q0]; cbn [incr index escape subt var];
        eexists _, _; (split; [reflexivity|]); split;
        try (repeat split; cbn [escape index subt var]; auto;
             intros H; now contradiction H);
        unfold pending_text; cbn [subt var render_all fold_right];
        now rewrite ?str_app_nil_l.
Qed.

Lemma loop_render (prefix : ascii) (quote : option ascii) (s : string) :
  forall st,
  tidy st -> contains backslash s = false ->
  exists st' ys,
    loop prefix quote st s = Ok (st', ys) /\ tidy st' /\
    render_all prefix ys +:+ pending_text prefix st'
    = pending_text prefix st +:+ s.
Proof.
  induction s as [|c s IH]; intros st Ht Hs.
  - eexists _, _. split; [reflexivity|]. split; [assumption|].
    cbn [render_all fold_right]. now rewrite str_app_nil_l, str_app_nil_r.
  - cbn [contains] in Hs.
    destruct (Ascii.eqb backslash c) eqn:E; [discriminate|].
    rewrite Ascii.eqb_sym in E.
    destruct (step_render prefix quote st c Ht E)
      as (st1 & ys & Hstep & Ht1 & Hr1).
    destruct (IH st1 Ht1 Hs) as (st2 & zs & Hloop & Ht2 & Hr2).
    cbn [loop]. rewrite Hstep, Hloop. eexists _, _.
    split; [reflexivity|]. split; [assumption|].
    rewrite render_all_app, str_app_assoc, Hr2, <- str_app_assoc, Hr1.
    now rewrite str_app_assoc.
Qed.

Lemma flush_render (prefix : ascii) (st : gen) :
  tidy st -> render_all prefix (flush st) = pending_text prefix st.
Proof.
  intros (_ & _ & Hv). unfold flush, pending_text.
  destruct (subt st) as [| |i t q];
    cbn [subt_true subt_yield render_all fold_right render].
  - destruct (var st); cbn [render_all fold_right render to_token];
      now rewrite ?str_app_nil_r.
  - destruct (var st); cbn [render_all fold_right render to_token];
      now rewrite ?str_app_nil_r.
  - now rewrite str_app_nil_r.
Qed.

Lemma split_from_words (s : string) : forall cur : string,
  str_all (fun c => negb (is_space c)) cur = true ->
  Forall (fun w => is_word w = true) (split_from s cur).
Proof.
  assert (Happ : forall a c,
    str_all (fun c => negb (is_space c)) a = true ->
    is_space c = false ->
    str_all (fun c => negb (is_space c)) (a +:+ String c EmptyString) = true).
  { induction a as [|x a IHa]; intros c Ha Hc.
    - rewrite str_app_nil_l. cbn [str_all]. now rewrite Hc.
    - rewrite str_app_cons. cbn [str_all] in *.
      apply andb_true_iff in Ha. destruct Ha as [Hx Ha].
      rewrite Hx. cbn [andb]. now apply IHa. }
  induction s as [|c s IH]; intros cur Hcur; cbn [split_from].
  - destruct (truthy cur) eqn:T; constructor; [|constructor].
    unfold is_word. now rewrite T, Hcur.
  - destruct (is_space c) eqn:Sc.
    + destruct (truthy cur) eqn:T.
      * constructor; [unfold is_word; now rewrite T, Hcur|].
        now apply IH.
      * now apply IH.
    + apply IH. now apply Happ.
Qed.

Lemma word_tokens_words (i : pyval) (parts : list string) : forall ws : bool,
  Forall (fun w => is_word w = true) parts ->
  Forall (is_word_token i) (word_tokens i ws parts).
Proof.
  induction parts as [|p parts IH]; intros ws H; [constructor|].
  inversion H as [|? ? Hp Hps]; subst.
  cbn [word_tokens]. apply Forall_app. split.
  - destruct ws; repeat constructor.
  - constructor; [now repeat split | now apply IH].
Qed.

Lemma on_tokenize_cons {Host : Type} (prefix : ascii) (h : Host)
    (ns : gmap string (value Host)) (t : Token) (rest : list Token) :
  on_tokenize prefix h ns (t :: rest) =
  match on_tokenize prefix h ns [t] with
  | Raise e => Raise e
  | Ok ts =>
      match on_tokenize prefix h ns rest with
      | Raise e => Raise e
      | Ok us => Ok (ts ++ us)
      end
  end.
Proof.
  cbn [on_tokenize].
  destruct (match t with
            | StringToken i s q =>
                if contains prefix s
                then match get_subtokens i s q prefix with
                     | Ok subts => reassemble_all h ns q subts
                     | Raise e => Raise e
                     end
                else Ok [t]
            | _ => Ok [t]
            end) as [ts|e]; [|reflexivity].
  now rewrite app_nil_r.
Qed.

End SubstitutionMore.

(** X6. On tokens whose string tokens carry an integer offset, variable
    substitution never raises: the generator never reaches
    [subt.text += ...] with [subt] a plain string or None, and never
    yields anything but string and variable tokens. *)
Theorem X6_substitution_returns {Host : Type} (prefix : ascii) (h : Host)
    (ns : gmap string (Variables.value Host)) (tokens : list Token) :
  Forall (fun t => int_indexed t = true) tokens ->
  exists out, Variables.on_tokenize prefix h ns tokens = Ok out.
Proof.
  induction tokens as [|t tokens IH]; intros H.
  - exists []. reflexivity.
  - inversion H as [|? ? Ht Hts]; subst.
    destruct (IH Hts) as [us Hus].
    rewrite SubstitutionMore.on_tokenize_cons, Hus.
    assert (Hone : exists ts, Variables.on_tokenize prefix h ns [t] = Ok ts).
    { destruct t as [i s q|i|i o|p i v]; try (eexists; reflexivity).
      destruct (contains prefix s) eqn:Ec.
      - rewrite VariablesFacts.on_tokenize_one by assumption.
        destruct i as [k|]; [|discriminate].
        destruct (SubtokensFacts.get_subtokens_total k s q prefix)
          as (subts & Hs & Hall).
        rewrite Hs. destruct q as [q|].
        + rewrite VariablesFacts.reassemble_all_quoted by assumption. eauto.
        + rewrite VariablesFacts.reassemble_all_unquoted by assumption. eauto.
      - cbn [Variables.on_tokenize]. rewrite Ec. eauto. }
    destruct Hone as [ts Hts']. rewrite Hts'. eauto.
Qed.

(** An instance of X6. *)
Lemma X6_substitution_returns_witness :
  exists out,
    Variables.on_tokenize "$" tt example_ns
      [StringToken (PyInt 0) "a\$b$c\" None; WhitespaceToken (PyStr "w")]
    = Ok out.
Proof.
  apply X6_substitution_returns. repeat constructor.
Defined.

(** X7. The subtokens of a text without a backslash spell the text: the
    texts of the string subtokens and, for each variable subtoken, the
    prefix followed by its name, put end to end, give the token text
    back. Nothing is lost and nothing is added by the split. *)
Theorem X7_subtokens_spell_the_text (prefix : ascii) (i : Z) (text : string)
    (q : option ascii) :
  contains backslash text = false ->
  exists subts,
    Subtokens.get_subtokens (PyInt i) text q prefix = Ok subts /\
    render_all prefix subts = text.
Proof.
  intros Hb. unfold Subtokens.get_subtokens.
  assert (Hstart : SubstitutionMore.tidy (Subtokens.start (PyInt i))).
  { repeat split. }
  destruct (SubstitutionMore.loop_render prefix q text
              (Subtokens.start (PyInt i)) Hstart Hb)
    as (st & ys & Hl & Ht & Hr).
  rewrite Hl. eexists. split; [reflexivity|].
  rewrite SubstitutionMore.render_all_app.
  rewrite SubstitutionMore.flush_render by assumption.
  rewrite Hr. reflexivity.
Qed.

(** An instance of X7. *)
Lemma X7_subtokens_spell_the_text_witness :
  exists subts,
    Subtokens.get_subtokens (PyInt 0) "x$a-$b$c y" None "$" = Ok subts /\
    render_all "$" subts = "x$a-$b$c y".
Proof. apply X7_subtokens_spell_the_text. reflexivity. Defined.

(** X8. Tokens that are not string tokens, and string tokens whose text
    does not hold the prefix, are passed on as they are: on a list of
    such tokens on_tokenize returns the list. *)
Theorem X8_no_reference_no_change {Host : Type} (prefix : ascii) (h : Host)
    (ns : gmap string (Variables.value Host)) (tokens : list Token) :
  Forall (fun t => no_reference prefix t = true) tokens ->
  Variables.on_tokenize prefix h ns tokens = Ok tokens.
Proof.
  induction tokens as [|t tokens IH]; intros H; [reflexivity|].
  inversion H as [|? ? Ht Hts]; subst.
  cbn [Variables.on_tokenize]. rewrite (IH Hts).
  destruct t as [i s q|i|i o|p i v]; try reflexivity.
  cbn [no_reference] in Ht. apply negb_true_iff in Ht. now rewrite Ht.
Qed.

(** An instance of X8. *)
Lemma X8_no_reference_no_change_witness :
  Variables.on_tokenize "$" tt example_ns
    [StringToken (PyStr "k") "echo" None; WhitespaceToken (PyInt 4);
     StringToken (PyInt 5) "a\b" (Some "'"%char)]
  = Ok [StringToken (PyStr "k") "echo" None; WhitespaceToken (PyInt 4);
        StringToken (PyInt 5) "a\b" (Some "'"%char)].
Proof. apply X8_no_reference_no_change. repeat constructor. Defined.

(** X9. Each token is expanded on its own: the result for two lists put
    end to end is the two results put end to end, and the call raises
    exactly when it raises on one of the two. *)
Theorem X9_substitution_of_concatenation {Host : Type} (prefix : ascii)
    (h : Host) (ns : gmap string (Variables.value Host))
    (a b : list Token) :
  Variables.on_tokenize prefix h ns (a ++ b) =
  match Variables.on_tokenize prefix h ns a with
  | Raise e => Raise e
  | Ok x =>
      match Variables.on_tokenize prefix h ns b with
      | Raise e => Raise e
      | Ok y => Ok (x ++ y)
      end
  end.
Proof.
  induction a as [|t a IH].
  - cbn [app Variables.on_tokenize].
    now destruct (Variables.on_tokenize prefix h ns b).
  - cbn [app]. rewrite (SubstitutionMore.on_tokenize_cons _ _ _ t (a ++ b)).
    rewrite (SubstitutionMore.on_tokenize_cons _ _ _ t a), IH.
    destruct (Variables.on_tokenize prefix h ns [t]) as [ts|]; [|reflexivity].
    destruct (Variables.on_tokenize prefix h ns a) as [x|]; [|reflexivity].
    destruct (Variables.on_tokenize prefix h ns b) as [y|]; [|reflexivity].
    now rewrite app_assoc.
Qed.

(** X10. A reference to a name that is not bound expands to the empty
    string: the unquoted token [$name] disappears from the list, the
    quoted one becomes one quoted string token with empty text. *)
Theorem X10_unbound_reference {Host : Type} (prefix : ascii) (h : Host)
    (ns : gmap string (Variables.value Host)) (i : Z) (name : string)
    (q : ascii) :
  is_name name = true -> ns !! name = None ->
  Variables.on_tokenize prefix h ns [StringToken (PyInt i) (String prefix name) None]
  = Ok [] /\
  Variables.on_tokenize prefix h ns
    [StringToken (PyInt i) (String prefix name) (Some q)]
  = Ok [StringToken (PyInt i) EmptyString (Some q)].
Proof.
  intros Hn Hu.
  assert (Hc : contains prefix (String prefix name) = true).
  { cbn [contains]. now rewrite Ascii.eqb_refl. }
  split.
  - rewrite VariablesFacts.on_tokenize_one by assumption.
    rewrite ScanCases.get_subtokens_reference by assumption.
    cbn [Variables.reassemble_all Variables.reassemble is_string_token
         Variables.expand]. now rewrite Hu.
  - rewrite VariablesFacts.on_tokenize_one by assumption.
    rewrite ScanCases.get_subtokens_reference by assumption.
    cbn [Variables.reassemble_all Variables.reassemble is_string_token
         Variables.expand]. now rewrite Hu.
Qed.

(** An instance of X10. *)
Lemma X10_unbound_reference_witness :
  Variables.on_tokenize "$" tt example_ns
    [StringToken (PyInt 7) "$undefined" None] = Ok [] /\
  Variables.on_tokenize "$" tt example_ns
    [StringToken (PyInt 7) "$undefined" (Some "'"%char)]
  = Ok [StringToken (PyInt 7) EmptyString (Some "'"%char)].
Proof.
  apply (X10_unbound_reference "$" tt example_ns 7 "undefined" "'"%char);
    reflexivity.
Defined.

(** X11. The unquoted token [$name] becomes unquoted words at the
    offset of the token: every string token produced holds a text that
    is not empty and has no white space in it, whatever the value of the
    variable. *)
Theorem X11_unquoted_reference_gives_words {Host : Type} (prefix : ascii)
    (h : Host) (ns : gmap string (Variables.value Host)) (i : Z)
    (name : string) :
  is_name name = true ->
  exists out,
    Variables.on_tokenize prefix h ns
      [StringToken (PyInt i) (String prefix name) None] = Ok out /\
    Forall (is_word_token (PyInt i)) out.
Proof.
  intros Hn.
  assert (Hc : contains prefix (String prefix name) = true).
  { cbn [contains]. now rewrite Ascii.eqb_refl. }
  rewrite VariablesFacts.on_tokenize_one by assumption.
  rewrite ScanCases.get_subtokens_reference by assumption.
  cbn [Variables.reassemble_all Variables.reassemble is_string_token
       token_index].
  rewrite VariablesFacts.expand_variable. rewrite app_nil_r.
  eexists. split; [reflexivity|].
  apply SubstitutionMore.word_tokens_words.
  apply SubstitutionMore.split_from_words. reflexivity.
Qed.

(** An instance of X11. *)
Lemma X11_unquoted_reference_gives_words_witness :
  exists out,
    Variables.on_tokenize "$" tt example_ns
      [StringToken (PyInt 2) "$v" None] = Ok out /\
    Forall (is_word_token (PyInt 2)) out.
Proof. apply X11_unquoted_reference_gives_words. reflexivity. Defined.

Module Offsets.

Import Subtokens SubtokensFacts.

Lemma loop_cons (prefix : ascii) (quote : option ascii) (st : gen)
    (c : ascii) (r : string) :
  loop prefix quote st (String c r) =
  match step prefix quote st c with
  | Raise e => Raise e
  | Ok (st', ys) =>
      match loop prefix quote st' r with
      | Raise e => Raise e
      | Ok (st'', zs) => Ok (st'', ys ++ zs)
      end
  end.
Proof. reflexivity. Qed.

Lemma step_first_literal (prefix : ascii) (quote : option ascii) (k : Z)
    (c : ascii) :
  Ascii.eqb c prefix = false -> Ascii.eqb c backslash = false ->
  step prefix quote (start (PyInt k)) c =
  Ok ({| escape := false; index := PyInt (k + 1);
         subt := SubtString (PyInt k) (String c EmptyString) quote;
         var := None |}, []).
Proof.
  intros Hp Hb. unfold step, body, start. cbn [escape var index subt].
  now rewrite Hp, Hb.
Qed.

Lemma step_prefix_after_literal (prefix : ascii) (quote : option ascii)
    (k : Z) (i : pyval) (t : string) (q : option ascii) :
  step prefix quote
    {| escape := false; index := PyInt k; subt := SubtString i t q;
       var := None |} prefix =
  Ok ({| escape := false; index := PyInt (k + 1); subt := SubtNone;
         var := Some (VarTok (PyStr (String prefix EmptyString)) (PyInt k)
                        EmptyString) |},
      [StringToken i t q]).
Proof.
  unfold step, body. cbn [escape var index subt].
  now rewrite Ascii.eqb_refl.
Qed.

Lemma step_end_of_name (prefix : ascii) (quote : option ascii) (k : Z)
    (s : subt_val) (v : vartok) (d : ascii) :
  contains d VarChars = false ->
  Ascii.eqb d prefix = false -> Ascii.eqb d backslash = false ->
  step prefix quote
    {| escape := false; index := PyInt k; subt := s; var := Some v |} d =
  Ok ({| escape := false; index := PyInt (k + 1);
         subt := SubtString (PyInt k) (String d EmptyString) quote;
         var := None |},
      [to_token v]).
Proof.
  intros Hd Hp Hb. unfold step, body. cbn [escape var index subt].
  unfold add_char. now rewrite Hd, Hp, Hb.
Qed.

(** Literal text, a reference, literal text. *)
Lemma get_subtokens_around (prefix : ascii) (i : Z) (c0 d : ascii)
    (l0 name l1 : string) (q : option ascii) :
  is_literal prefix (String c0 l0) = true ->
  is_name name = true ->
  contains d VarChars = false ->
  is_literal prefix (String d l1) = true ->
  get_subtokens (PyInt i)
    (String c0 l0 +:+ String prefix name +:+ String d l1) q prefix =
  Ok [StringToken (PyInt i) (String c0 l0) q;
      VariableToken (PyStr (String prefix EmptyString))
        (PyInt (i + Z.of_nat (String.length (String c0 l0)))) name;
      StringToken
        (PyInt (i + Z.of_nat (String.length (String c0 l0)) + 1
                + Z.of_nat (String.length name)))
        (String d l1) q].
Proof.
  intros H0 Hn Hd H1.
  cbn [is_literal str_all] in H0, H1.
  apply andb_true_iff in H0. destruct H0 as [Hc0 Hl0].
  apply andb_true_iff in H1. destruct H1 as [Hd1 Hl1].
  apply andb_true_iff in Hc0. destruct Hc0 as [Hc0p Hc0b].
  apply andb_true_iff in Hd1. destruct Hd1 as [Hdp Hdb].
  apply negb_true_iff in Hc0p, Hc0b, Hdp, Hdb.
  unfold get_subtokens.
  rewrite str_app_cons, loop_cons, step_first_literal by assumption.
  cbv beta iota.
  rewrite loop_app, (loop_literal prefix q l0) by exact Hl0.
  cbv beta iota.
  rewrite (str_app_cons prefix name), loop_cons, step_prefix_after_literal.
  cbv beta iota.
  rewrite loop_app, loop_name by assumption.
  cbv beta iota.
  rewrite loop_cons, step_end_of_name by assumption.
  cbv beta iota.
  rewrite (loop_literal prefix q l1) by exact Hl1.
  cbv beta iota.
  cbn [flush subt subt_true subt_yield app to_token vt_prefix vt_index vt_var].
  rewrite !str_app_nil_l.
  replace (i + 1 + Z.of_nat (String.length l0))
    with (i + Z.of_nat (String.length (String c0 l0)))
    by (cbn [String.length]; lia).
  reflexivity.
Qed.

End Offsets.

(** X12. Offsets of the subtokens: in a quoted token made of literal
    text, a reference and literal text that starts with a character
    outside the names, the three tokens produced carry the offsets of
    their first characters in the line, and the texts are the first
    literal, the expansion and the second literal. *)
Theorem X12_offsets_around_a_reference {Host : Type} (prefix : ascii)
    (h : Host) (ns : gmap string (Variables.value Host)) (i : Z)
    (c0 d : ascii) (l0 name l1 : string) (q : ascii) :
  is_literal prefix (String c0 l0) = true ->
  is_name name = true ->
  contains d Subtokens.VarChars = false ->
  is_literal prefix (String d l1) = true ->
  Variables.on_tokenize prefix h ns
    [StringToken (PyInt i)
       (String c0 l0 +:+ String prefix name +:+ String d l1) (Some q)]
  = Ok [StringToken (PyInt i) (String c0 l0) (Some q);
        StringToken (PyInt (i + Z.of_nat (String.length (String c0 l0))))
                    (lookup_text h ns name) (Some q);
        StringToken
          (PyInt (i + Z.of_nat (String.length (String c0 l0)) + 1
                  + Z.of_nat (String.length name)))
          (String d l1) (Some q)].
Proof.
  intros H0 Hn Hd H1.
  assert (Hc : contains prefix
                 (String c0 l0 +:+ String prefix name +:+ String d l1) = true).
  { clear. induction (String c0 l0) as [|x s IH].
    - rewrite str_app_nil_l, str_app_cons. cbn [contains].
      now rewrite Ascii.eqb_refl.
    - rewrite str_app_cons. cbn [contains].
      now destruct (Ascii.eqb prefix x). }
  rewrite VariablesFacts.on_tokenize_one by assumption.
  rewrite Offsets.get_subtokens_around by assumption.
  cbn [Variables.reassemble_all Variables.reassemble is_string_token
       token_index app].
  now rewrite VariablesFacts.expand_variable.
Qed.

(** An instance of X12. *)
Lemma X12_offsets_around_a_reference_witness :
  Variables.on_tokenize "$" tt example_ns
    [StringToken (PyInt 10) "to $name, hi" (Some "'"%char)]
  = Ok [StringToken (PyInt 10) "to " (Some "'"%char);
        StringToken (PyInt 13) "World" (Some "'"%char);
        StringToken (PyInt 18) ", hi" (Some "'"%char)].
Proof.
  exact (X12_offsets_around_a_reference "$" tt example_ns 10 "t" ","
           "o " "name" " hi" "'"%char eq_refl eq_refl eq_refl eq_refl).
Defined.

(** X13. A name character for [VariableToken.add_char] is a letter, a
    digit or the underscore: such a character is added to the name, any
    other character ends the token and leaves the name as it is. *)
Theorem X13_add_char_charset (v : Subtokens.vartok) (c : ascii) :
  Subtokens.add_char v c =
  if is_name_char c then
    (Subtokens.VarTok (Subtokens.vt_prefix v) (Subtokens.vt_index v)
       (Subtokens.vt_var v +:+ String c EmptyString),
     Subtokens.TokenContinue)
  else (v, Subtokens.TokenEnd).
Proof.
  assert (Hall : all_ascii (fun a =>
            Bool.eqb (contains a Subtokens.VarChars) (is_name_char a)) = true)
    by (vm_compute; reflexivity).
  pose proof (all_ascii_spec _ Hall c) as H. cbv beta in H.
  apply Bool.eqb_prop in H. unfold Subtokens.add_char. now rewrite H.
Qed.

(* ===================================================================== *)
(** ** Further properties of the var command                              *)
(* ===================================================================== *)

(** X14. An assignment to a name that does not hold a managed variable
    stores the value as a plain string, returns 0 and reports nothing; a
    missing value is stored as the empty string. A quoted reference to
    the name then expands to exactly that value. *)
Theorem X14_assignment_then_reference {Host : Type}
    (parse : list string -> list string * Variables.Expression)
    (sh : Variables.Shell Host) (a0 : string) (rest : list string)
    (name : string) (v : option string) (prefix : ascii) (i : Z) (q : ascii) :
  a0 <> "-h" -> a0 <> "-l" -> a0 <> "-d" ->
  parse (a0 :: rest)
    = ([], Variables.MkExpression (Some name) (Some "=") v) ->
  (forall m, Variables.vars sh !! name <> Some (Variables.ManagedVar m)) ->
  is_name name = true ->
  Variables.run parse sh (a0 :: rest)
  = (Variables.MkShell (Variables.host sh)
       (<[name := Variables.Plain (default EmptyString v)]> (Variables.vars sh))
       (Variables.calls sh), Ok 0) /\
  Variables.on_tokenize prefix
    (Variables.host (fst (Variables.run parse sh (a0 :: rest))))
    (Variables.vars (fst (Variables.run parse sh (a0 :: rest))))
    [StringToken (PyInt i) (String prefix name) (Some q)]
  = Ok [StringToken (PyInt i) (default EmptyString v) (Some q)].
Proof.
  intros Hh Hl Hd Hparse Hm Hn.
  assert (Hrun : Variables.run parse sh (a0 :: rest)
    = (Variables.MkShell (Variables.host sh)
         (<[name := Variables.Plain (default EmptyString v)]> (Variables.vars sh))
         (Variables.calls sh), Ok 0)).
  { unfold Variables.run.
    apply String.eqb_neq in Hh, Hl, Hd. rewrite Hh, Hl, Hd, Hparse.
    cbn [Variables.operand Variables.operator Variables.exp_value].
    change (String.eqb "=" "=") with true. cbn [negb].
    unfold Variables.assign.
    destruct (Variables.vars sh !! name) as [[s|f|m]|] eqn:E;
      try reflexivity.
    now contradiction (Hm m). }
  split; [exact Hrun|].
  rewrite Hrun. cbn [fst Variables.host Variables.vars].
  rewrite VariablesFacts.on_tokenize_one
    by (cbn [contains]; now rewrite Ascii.eqb_refl).
  rewrite ScanCases.get_subtokens_reference by assumption.
  cbn [Variables.reassemble_all Variables.reassemble is_string_token
       Variables.expand token_index app].
  now rewrite lookup_insert_eq.
Qed.

(** An instance of X14: [var greeting = hi there] replaces the value of
    [greeting]. *)
Lemma X14_assignment_then_reference_witness :
  Variables.on_tokenize "$" tt
    (Variables.vars
       (fst (Variables.run parse_args example_shell
               ["greeting"; "="; "hi  there"])))
    [StringToken (PyInt 5) "$greeting" (Some "'"%char)]
  = Ok [StringToken (PyInt 5) "hi  there" (Some "'"%char)].
Proof.
  assert (Hm : forall m,
    Variables.vars example_shell !! "greeting" <> Some (Variables.ManagedVar m))
    by (intros m; vm_compute; discriminate).
  assert (H1 : "greeting" <> "-h") by discriminate.
  assert (H2 : "greeting" <> "-l") by discriminate.
  assert (H3 : "greeting" <> "-d") by discriminate.
  exact (proj2 (X14_assignment_then_reference parse_args example_shell
                  "greeting" ["="; "hi  there"] "greeting" (Some "hi  there")
                  "$" 5 "'"%char H1 H2 H3 eq_refl Hm eq_refl)).
Defined.

(** X15. [var -d name] returns 0, reports nothing and removes the
    binding of the name, whether or not there was one; every other name
    keeps its binding. *)
Theorem X15_delete_removes_one_name {Host : Type}
    (parse : list string -> list string * Variables.Expression)
    (sh : Variables.Shell Host) (name k : string) :
  snd (Variables.run parse sh ["-d"; name]) = Ok 0 /\
  Variables.host (fst (Variables.run parse sh ["-d"; name]))
    = Variables.host sh /\
  Variables.calls (fst (Variables.run parse sh ["-d"; name]))
    = Variables.calls sh /\
  Variables.vars (fst (Variables.run parse sh ["-d"; name])) !! name = None /\
  (k <> name ->
   Variables.vars (fst (Variables.run parse sh ["-d"; name])) !! k
   = Variables.vars sh !! k).
Proof.
  unfold Variables.run.
  change (String.eqb "-d" "-h") with false.
  change (String.eqb "-d" "-l") with false.
  change (String.eqb "-d" "-d") with true.
  cbn [List.length Nat.eqb negb fst snd Variables.host Variables.calls
       Variables.vars].
  repeat split.
  - apply lookup_delete_eq.
  - intros Hk. now apply lookup_delete_ne.
Qed.

(** An instance of X15. *)
Lemma X15_delete_removes_one_name_witness :
  Variables.vars (fst (Variables.run parse_args example_shell ["-d"; "a"]))
    !! "b" = Some (Variables.Plain "y").
Proof.
  destruct (X15_delete_removes_one_name parse_args example_shell "a" "b")
    as (_ & _ & _ & _ & H).
  rewrite H by discriminate. reflexivity.
Defined.

(** X16. A call of the var command that returns 1 has changed neither
    the namespace nor the host, and has reported something. *)
Theorem X16_failure_changes_nothing {Host : Type}
    (parse : list string -> list string * Variables.Expression)
    (sh : Variables.Shell Host) (args : list string) :
  snd (Variables.run parse sh args) = Ok 1 ->
  Variables.vars (fst (Variables.run parse sh args)) = Variables.vars sh /\
  Variables.host (fst (Variables.run parse sh args)) = Variables.host sh /\
  exists c cs,
    Variables.calls (fst (Variables.run parse sh args))
    = Variables.calls sh ++ c :: cs.
Proof.
  unfold Variables.run.
  destruct args as [|a0 rest].
  { intros _. cbn. eauto. }
  destruct (String.eqb a0 "-h"); [discriminate|].
  destruct (String.eqb a0 "-l").
  { destruct (negb (Nat.eqb (List.length (a0 :: rest)) 1)); [|discriminate].
    intros _. cbn. rewrite <- app_assoc. cbn. eauto. }
  destruct (String.eqb a0 "-d").
  { destruct (negb (Nat.eqb (List.length (a0 :: rest)) 2)).
    - intros _. cbn. rewrite <- app_assoc. cbn. eauto.
    - destruct rest as [|n [|x r]]; discriminate. }
  destruct (parse (a0 :: rest)) as [remaining exp].
  destruct remaining as [|r0 rs]; [|intros _; cbn; eauto].
  destruct (Variables.operand exp) as [name|]; [|intros _; cbn; eauto].
  destruct (Variables.operator exp) as [op|]; [|intros _; cbn; eauto].
  destruct (negb (String.eqb op "=")); [intros _; cbn; eauto|].
  destruct (Variables.assign sh name (default "" (Variables.exp_value exp)))
    as [sh' [e|]]; [|discriminate].
  destruct e; discriminate.
Qed.

(** An instance of X16: two names in one assignment. *)
Lemma X16_failure_changes_nothing_witness :
  Variables.vars
    (fst (Variables.run parse_args example_shell ["a"; "="; "1"; "b"]))
  = example_ns.
Proof.
  destruct (X16_failure_changes_nothing parse_args example_shell
              ["a"; "="; "1"; "b"]) as (H & _).
  - reflexivity.
  - exact H.
Defined.

(** X17. One call of the var command changes the binding of one name at
    most: there is a name such that every other name is bound after the
    call as it was before. *)
Theorem X17_one_name_changes {Host : Type}
    (parse : list string -> list string * Variables.Expression)
    (sh : Variables.Shell Host) (args : list string) :
  exists k, forall k',
    k' <> k ->
    Variables.vars (fst (Variables.run parse sh args)) !! k'
    = Variables.vars sh !! k'.
Proof.
  unfold Variables.run.
  destruct args as [|a0 rest]; [exists EmptyString; reflexivity|].
  destruct (String.eqb a0 "-h"); [exists EmptyString; reflexivity|].
  destruct (String.eqb a0 "-l").
  { destruct (negb (Nat.eqb (List.length (a0 :: rest)) 1));
      exists EmptyString; reflexivity. }
  destruct (String.eqb a0 "-d").
  { destruct (negb (Nat.eqb (List.length (a0 :: rest)) 2));
      [exists EmptyString; reflexivity|].
    destruct rest as [|n [|x r]]; try (exists EmptyString; reflexivity).
    exists n. intros k' Hk. cbn. now apply lookup_delete_ne. }
  destruct (parse (a0 :: rest)) as [remaining exp].
  destruct remaining as [|r0 rs]; [|exists EmptyString; reflexivity].
  destruct (Variables.operand exp) as [name|];
    [|exists EmptyString; reflexivity].
  destruct (Variables.operator exp) as [op|];
    [|exists EmptyString; reflexivity].
  destruct (negb (String.eqb op "=")); [exists EmptyString; reflexivity|].
  exists name. intros k' Hk.
  assert (Ha : Variables.vars
                 (fst (Variables.assign sh name
                         (default "" (Variables.exp_value exp)))) !! k'
               = Variables.vars sh !! k').
  { unfold Variables.assign.
    destruct (Variables.vars sh !! name) as [[s|f|m]|];
      try (cbn; now apply lookup_insert_ne).
    destruct (Variables.managed_set Host m (Variables.host sh)
                (default "" (Variables.exp_value exp))) as [h' e].
    reflexivity. }
  destruct (Variables.assign sh name (default "" (Variables.exp_value exp)))
    as [sh' [e|]]; [destruct e|]; exact Ha.
Qed.

(** X18. An assignment to a managed variable that has a setter hands
    the value to the setter: when the setter raises nothing the command
    returns 0, the host is the one the setter leaves, and the namespace
    still binds the name to the managed variable. *)
Theorem X18_assignment_through_setter {Host : Type}
    (parse : list string -> list string * Variables.Expression)
    (sh : Variables.Shell Host) (a0 : string) (rest : list string)
    (name : string) (v : option string)
    (m : Variables.ManagedVariable Host)
    (f : Host -> string -> Host * option exn) (h' : Host) :
  a0 <> "-h" -> a0 <> "-l" -> a0 <> "-d" ->
  parse (a0 :: rest)
    = ([], Variables.MkExpression (Some name) (Some "=") v) ->
  Variables.vars sh !! name = Some (Variables.ManagedVar m) ->
  Variables.setter Host m = Some f ->
  f (Variables.host sh) (default EmptyString v) = (h', None) ->
  Variables.run parse sh (a0 :: rest)
  = (Variables.MkShell h' (Variables.vars sh) (Variables.calls sh), Ok 0).
Proof.
  intros Hh Hl Hd Hparse Hvar Hset Hf.
  unfold Variables.run.
  apply String.eqb_neq in Hh, Hl, Hd. rewrite Hh, Hl, Hd, Hparse.
  cbn [Variables.operand Variables.operator Variables.exp_value].
  change (String.eqb "=" "=") with true. cbn [negb].
  unfold Variables.assign. rewrite Hvar.
  unfold Variables.managed_set. rewrite Hset, Hf. reflexivity.
Qed.

(** An instance of X18: the host is a prompt string and the setter of
    [prompt] replaces it. *)
Lemma X18_assignment_through_setter_witness :
  Variables.run parse_args (prompt_shell "> ") ["prompt"; "="; "# "]
  = (prompt_shell "# ", Ok 0).
Proof.
  assert (H1 : "prompt" <> "-h") by discriminate.
  assert (H2 : "prompt" <> "-l") by discriminate.
  assert (H3 : "prompt" <> "-d") by discriminate.
  exact (X18_assignment_through_setter parse_args (prompt_shell "> ")
           "prompt" ["="; "# "] "prompt" (Some "# ") prompt_var
           (fun _ v => (v, None)) "# " H1 H2 H3 eq_refl eq_refl eq_refl
           eq_refl).
Defined.

(** An instance of X17: the assignment to [a] leaves [b] as it was. *)
Lemma X17_one_name_changes_witness :
  exists k, forall k',
    k' <> k ->
    Variables.vars
      (fst (Variables.run parse_args example_shell ["a"; "="; "1"])) !! k'
    = example_ns !! k'.
Proof.
  exact (X17_one_name_changes parse_args example_shell ["a"; "="; "1"]).
Defined.

Module ListingFacts.

Import Variables.

Lemma spaces_length (n : nat) : String.length (spaces n) = n.
Proof. induction n as [|n IH]; [reflexivity|]. cbn. now rewrite IH. Qed.

Lemma fold_max_ge (l : list (string * string)) : forall m0 : nat,
  (m0 <= fold_left (fun m kv => Nat.max m (String.length (fst kv))) l m0)%nat /\
  Forall (fun kv =>
            (String.length (fst kv)
             <= fold_left (fun m kv => Nat.max m (String.length (fst kv))) l m0)%nat)
         l.
Proof.
  induction l as [|x l IH]; intros m0; cbn [fold_left].
  - split; [lia | constructor].
  - destruct (IH (Nat.max m0 (String.length (fst x)))) as [H1 H2].
    split; [lia|]. constructor; [lia | exact H2].
Qed.

#[local] Instance name_le_total : Total name_le.
Proof. intros a b. unfold name_le. apply String.leb_total. Qed.

End ListingFacts.

#[local] Existing Instance Variables.name_le_dec.

(** X19. [var -l] returns 0 and changes neither the namespace nor the
    host. It writes one row per variable to the info channel, in the
    order of the names, each with the resolved value; the name and the
    padding after it have the same total width in every row, so the
    values line up. *)
Theorem X19_listing_sorted_and_aligned {Host : Type}
    (parse : list string -> list string * Variables.Expression)
    (sh : Variables.Shell Host) :
  exists (rows : list (string * string)) (w : nat),
    Variables.run parse sh ["-l"]
    = (Variables.MkShell (Variables.host sh) (Variables.vars sh)
         (Variables.calls sh ++ map (listing_row w) rows), Ok 0) /\
    Permutation rows
      (map (fun kv => (fst kv, Variables.resolve Host (Variables.host sh) (snd kv)))
           (map_to_list (Variables.vars sh))) /\
    List.length rows = size (Variables.vars sh) /\
    Sorted Variables.name_le rows /\
    Forall (fun v =>
              (String.length (fst v)
               + String.length
                   (Variables.spaces (w - String.length (fst v))))%nat = w)
           rows.
Proof.
  set (entries :=
         map (fun kv => (fst kv, Variables.resolve Host (Variables.host sh) (snd kv)))
             (map_to_list (Variables.vars sh))).
  exists (merge_sort Variables.name_le entries),
         (fold_left (fun m kv => Nat.max m (String.length (fst kv))) entries O).
  split; [reflexivity|].
  split; [apply merge_sort_Permutation|].
  split.
  { rewrite merge_sort_Permutation. unfold entries.
    rewrite length_map. apply length_map_to_list. }
  split; [apply Sorted_merge_sort, ListingFacts.name_le_total|].
  rewrite merge_sort_Permutation.
  destruct (ListingFacts.fold_max_ge entries O) as [_ H].
  eapply Forall_impl; [exact H|].
  intros v Hv. cbv beta in Hv. rewrite ListingFacts.spaces_length. lia.
Qed.

(* ===================================================================== *)
(** ** Further properties of the thread-local streams and threads         *)
(* ===================================================================== *)

(** X20. What a thread installs with [_proxy] is what the thread then
    sees: its target tuple, stream and width are the ones installed, and
    [isatty()] is the flag installed or, when the flag is None, the
    answer of the installed stream, not of the canonical one. *)
Theorem X20_override_is_seen {Stream : Type} (stream_isatty : Stream -> bool)
    (s : Pipes.ThreadLocalStream Stream) (cur : Z)
    (target : Stream) (width : option Z) (flag : option bool) :
  Pipes._get_target (Pipes._proxy s cur target width flag) cur
    = (target, width, flag) /\
  Pipes._get_target_stream (Pipes._proxy s cur target width flag) cur
    = target /\
  Pipes.width (Pipes._proxy s cur target width flag) cur = width /\
  Pipes.isatty stream_isatty (Pipes._proxy s cur target width flag) cur
    = match flag with
      | Some b => b
      | None => stream_isatty target
      end.
Proof.
  assert (H : Pipes._get_target (Pipes._proxy s cur target width flag) cur
              = (target, width, flag)).
  { unfold Pipes._get_target, Pipes._proxy. cbn [Pipes._proxies Pipes._target].
    now rewrite lookup_insert_eq. }
  unfold Pipes._get_target_stream, Pipes.width, Pipes.isatty.
  rewrite H. repeat split.
Qed.

(** X21. Removing the override a thread has installed gives the thread
    the canonical tuple again; when the thread had no override before,
    installing one and removing it leaves the stream object as it
    was. *)
Theorem X21_proxy_then_unproxy {Stream : Type}
    (s : Pipes.ThreadLocalStream Stream) (cur : Z)
    (target : Stream) (width : option Z) (flag : option bool) :
  Pipes._get_target
    (Pipes._unproxy (Pipes._proxy s cur target width flag) cur None) cur
    = Pipes._target s /\
  (Pipes._proxies s !! cur = None ->
   Pipes._unproxy (Pipes._proxy s cur target width flag) cur None = s).
Proof.
  unfold Pipes._unproxy, Pipes._proxy, Pipes.ident_or.
  cbn [Pipes._proxies Pipes._target]. rewrite lookup_insert_eq.
  split.
  - unfold Pipes._get_target. cbn [Pipes._proxies Pipes._target].
    now rewrite lookup_delete_eq.
  - intros Hn. rewrite delete_insert_eq, delete_id by assumption.
    now destruct s.
Qed.

(** An instance of X21. *)
Lemma X21_proxy_then_unproxy_witness :
  Pipes._unproxy
    (Pipes._proxy (Pipes.new_stream 10%nat None None) 7 11%nat (Some 80) None)
    7 None
  = Pipes.new_stream 10%nat None None.
Proof.
  apply (X21_proxy_then_unproxy (Pipes.new_stream 10%nat None None) 7
           11%nat (Some 80) None).
  reflexivity.
Defined.

(** X22. [_unproxy] does nothing the second time, and the ident 0 is
    taken for no ident: [_unproxy(0)] removes the override of the
    calling thread. *)
Theorem X22_unproxy_twice_and_zero {Stream : Type}
    (s : Pipes.ThreadLocalStream Stream) (cur : Z) (ident : option Z) :
  Pipes._unproxy (Pipes._unproxy s cur ident) cur ident
    = Pipes._unproxy s cur ident /\
  Pipes._unproxy s cur (Some 0) = Pipes._unproxy s cur None.
Proof.
  split; [|reflexivity].
  unfold Pipes._unproxy.
  destruct (Pipes._proxies s !! Pipes.ident_or ident cur) eqn:E.
  - cbn [Pipes._proxies Pipes._target]. now rewrite lookup_delete_eq.
  - now rewrite E.
Qed.

(** X23. [run()] on a thread with no failure recorded leaves exactly one
    of the return code and the failure record set: the code when the
    invocation returns, the exception when it raises (any code is then
    cleared). A later [stop()] keeps both, and the life cycle, as they
    are. *)
Theorem X23_run_records_the_outcome {Invocation : Type}
    (call_invoke : Invocation -> Invocation * result Z)
    (close_streams : Invocation -> Invocation * option exn)
    (t : Pipes.InvocationThread Invocation) :
  Pipes.exc_info t = None ->
  match snd (call_invoke (Pipes.invoke t)) with
  | Ok c =>
      Pipes.rc (Pipes.run call_invoke t) = Some c /\
      Pipes.exc_info (Pipes.run call_invoke t) = None
  | Raise e =>
      Pipes.rc (Pipes.run call_invoke t) = None /\
      Pipes.exc_info (Pipes.run call_invoke t) = Some e
  end /\
  Pipes.rc (Pipes.thread_after
              (Pipes.stop close_streams (Pipes.run call_invoke t)))
    = Pipes.rc (Pipes.run call_invoke t) /\
  Pipes.exc_info (Pipes.thread_after
                    (Pipes.stop close_streams (Pipes.run call_invoke t)))
    = Pipes.exc_info (Pipes.run call_invoke t) /\
  Pipes.life_of (Pipes.thread_after
                   (Pipes.stop close_streams (Pipes.run call_invoke t)))
    = Pipes.life_of t.
Proof.
  intros He. unfold Pipes.run.
  destruct (call_invoke (Pipes.invoke t)) as [inv' [c|e]]; cbn [snd];
    unfold Pipes.stop, Pipes.is_alive; cbn [Pipes.life_of Pipes.invoke];
    destruct (Pipes.life_of t);
    try destruct (close_streams inv') as [inv'' e'];
    cbn; auto.
Qed.

(** An instance of X23: an invocation that raises, on a running thread
    that held a code. *)
Lemma X23_run_records_the_outcome_witness :
  Pipes.rc
    (Pipes.run (fun inv : nat => (inv, Raise (OtherError "boom")))
       (Pipes.MkThread Pipes.Running 0%nat None (Some 3)))
  = None.
Proof.
  destruct (X23_run_records_the_outcome
              (fun inv : nat => (inv, Raise (OtherError "boom")))
              (fun inv : nat => (inv, None))
              (Pipes.MkThread Pipes.Running 0%nat None (Some 3)) eq_refl)
    as [[H _] _].
  exact H.
Defined.

(* ===================================================================== *)
(** ** The namespace of a new plugin                                      *)
(* ===================================================================== *)

(** X24. In the namespace of a new plugin a name is bound to the last
    value [locals] gives it; a name that [locals] does not give is bound
    as in the environment, to a plain string, or not at all. *)
Theorem X24_locals_override_environment {Host : Type}
    (environ : gmap string string)
    (locals : list (string * Variables.value Host)) (k : string) :
  init_namespace environ locals !! k =
  match last_binding k locals with
  | Some v => Some v
  | None => Variables.Plain <$> environ !! k
  end.
Proof.
  unfold init_namespace. rewrite <- lookup_fmap.
  generalize (Variables.Plain (Host := Host) <$> environ).
  induction locals as [|[k' v'] locals IH]; intros m; [reflexivity|].
  cbn [fold_left fst snd last_binding]. rewrite IH.
  destruct (last_binding k locals); [reflexivity|].
  destruct (String.eqb k k') eqn:E.
  - apply String.eqb_eq in E. subst. apply lookup_insert_eq.
  - apply String.eqb_neq in E. apply lookup_insert_ne. congruence.
Qed.
